(** * Ad eligibility and selection engine (bat-native-ads)

    A shallow embedding of
    - [ad_targeting.cc]: [FilterSegments], [GetTopSegments],
      [GetTopParentChildSegments], [GetTopParentSegments];
    - [eligible_inline_content_ads.cc]: [ShouldCapLastServedAd],
      [EligibleAds::GetForSegments], [GetFromAdPredictorScores],
      [GetEligibleAds], [ChooseAd], the three cascade tiers,
      [FilterIneligibleAds] and [ApplyFrequencyCapping];
    - [eligible_ads_predictor_util.h]: [ComputePredictorFeatures],
      [ComputePredictorScore], [ComputePredictorFeaturesAndScores].

    Asynchronous calls are written in continuation-passing style, exactly
    as the callbacks of the source, and thread a log of the store calls
    that were issued.  Collaborators whose code lives outside these files
    (stores, exclusion rules, pacing, sampling, ...) are fields of an
    environment record. *)

From Stdlib Require Import ZArith NArith QArith Lia Ascii String Sorted.
From stdpp Require Import base list strings.

Local Open Scope string_scope.
Local Open Scope list_scope.
Local Open Scope Z_scope.

(** ** Data model *)

(** [using SegmentList = std::vector<std::string>]
    (ad_targeting_segment_info.h). *)
Abbreviation SegmentList := (list string).

(** [struct SegmentsInfo] (ad_targeting_segment_info.h). *)
Record SegmentsInfo := {
  text_classification_segments : SegmentList;
  epsilon_greedy_bandit_segments : SegmentList;
  purchase_intent_segments : SegmentList
}.

(** Arithmetic on C++ [double], kept abstract: every statement below holds
    for any interpretation of the four operations, IEEE-754 included. *)
Class DoubleOps (double : Type) := {
  d_zero : double;                       (* the literal 0.0 *)
  d_add : double -> double -> double;
  d_mul : double -> double -> double;
  d_div : double -> double -> double;
  d_of_int : Z -> double                 (* int / unsigned int -> double *)
}.

(** One record of the ad-event history. *)
Record AdEventInfo := {
  ev_creative_instance_id : string;
  ev_creative_set_id : string;
  ev_campaign_id : string;
  ev_advertiser_id : string;
  ev_confirmation_type : string;
  ev_timestamp : Z
}.

Abbreviation AdEventList := (list AdEventInfo).

Record BrowsingHistoryEntry := {
  bh_url : string;
  bh_timestamp : Z
}.

Abbreviation BrowsingHistoryList := (list BrowsingHistoryEntry).

(** [enum class AdType]; the engine passes [kInlineContentAd]. *)
Inductive AdType := kAdNotification | kInlineContentAd.

(** The calls issued to the asynchronous stores, in the order issued. *)
Inductive StoreCall :=
| AdEvents_GetAll
| Client_GetBrowsingHistory (max_count days_ago : Z)
| CreativeAds_GetForDimensions (dimensions : string)
| CreativeAds_GetForSegmentsAndDimensions (segments : SegmentList)
                                          (dimensions : string).

Abbreviation CallLog := (list StoreCall).

Section DataModel.

Context {double : Type}.

(** [struct CreativeAdInfo]; the fields are the ones the unit test fixture
    [GetCreativeAdNotificationForSegment] fills in.  Inline content ads
    extend this struct; the engine only reads the base fields. *)
Record CreativeAdInfo := {
  creative_instance_id : string;
  creative_set_id : string;
  campaign_id : string;
  advertiser_id : string;
  start_at_timestamp : Z;
  end_at_timestamp : Z;
  daily_cap : N;
  priority : N;                          (* unsigned int *)
  ptr : double;
  per_day : N;
  per_week : N;
  per_month : N;
  total_max : N;
  segment : string;
  geo_targets : list string
}.

Abbreviation CreativeAdList := (list CreativeAdInfo).

(** [struct AdPredictorInfo<T>]. *)
Record AdPredictorInfo := {
  creative_ad : CreativeAdInfo;
  segments : SegmentList;
  does_match_intent_child_segments : bool;
  does_match_intent_parent_segments : bool;
  does_match_interest_child_segments : bool;
  does_match_interest_parent_segments : bool;
  ad_last_seen_hours_ago : Z;            (* int *)
  advertiser_last_seen_hours_ago : Z;    (* int *)
  score : double
}.

(** [std::map<std::string, AdPredictorInfo<T>>]: iteration is in key order
    and [insert] keeps the value a key already has, so the map is an
    association list kept sorted by key (see [map_insert]). *)
Abbreviation CreativeAdPredictorMap := (list (string * AdPredictorInfo)).

(** Collaborators of the engine whose code is outside the embedded files.
    Each field is the answer the collaborator gives during one selection. *)
Record Env := {
  (* ad_targeting_segment_util.h *)
  GetParentSegments : SegmentList -> SegmentList;
  ShouldFilterSegment : string -> bool;
  (* features:: *)
  GetBrowsingHistoryMaxCount : Z;
  GetBrowsingHistoryDaysAgo : Z;
  GetAdPredictorWeights : list double;
  (* database::table::AdEvents::GetAll -> (success, ad_events) *)
  db_AdEvents_GetAll : bool * AdEventList;
  (* AdsClient::GetBrowsingHistory(max_count, days_ago) *)
  client_GetBrowsingHistory : Z -> Z -> BrowsingHistoryList;
  (* database::table::CreativeInlineContentAds *)
  db_GetForDimensions : string -> bool * CreativeAdList;
  db_GetForSegmentsAndDimensions :
    SegmentList -> string -> bool * SegmentList * CreativeAdList;
  (* seen_advertisers.h, seen_ads.h *)
  FilterSeenAdvertisersAndRoundRobinIfNeeded :
    CreativeAdList -> AdType -> CreativeAdList;
  FilterSeenAdsAndRoundRobinIfNeeded :
    CreativeAdList -> AdType -> CreativeAdList;
  (* frequency_capping::ExclusionRules(subdivision_targeting,
     anti_targeting_resource, ad_events, browsing_history)
       .ShouldExcludeAd(ad) *)
  ShouldExcludeAd :
    AdEventList -> BrowsingHistoryList -> CreativeAdInfo -> bool;
  (* ad_pacing.h, ad_priority.h *)
  PaceAds : CreativeAdList -> CreativeAdList;
  PrioritizeAds : CreativeAdList -> CreativeAdList;
  (* eligible_ads_util.h, sample_ads.h *)
  GroupEligibleAdsByCreativeInstanceId :
    CreativeAdList -> CreativeAdPredictorMap;
  SampleFromAds : CreativeAdPredictorMap -> option CreativeAdInfo;
  (* base::Time::Now(), base::TimeDelta::InHours(), ad_event_util.h *)
  Time_Now : Z;
  TimeDelta_InHours : Z -> Z;
  GetLastSeenAdTime : AdEventList -> CreativeAdInfo -> option Z;
  GetLastSeenAdvertiserTime : AdEventList -> CreativeAdInfo -> option Z
}.

End DataModel.

Arguments CreativeAdInfo : clear implicits.
Arguments AdPredictorInfo : clear implicits.
Arguments Env : clear implicits.

Abbreviation CreativeAdList double := (list (CreativeAdInfo double)).
Abbreviation CreativeAdPredictorMap double :=
  (list (string * AdPredictorInfo double)).

(** ** Segment resolver (ad_targeting.cc) *)

Module ad_targeting.
Section SegmentResolver.

Context {double : Type} (E : Env double).

Definition kTopTextClassificationSegmentCount : Z := 3.

(** The [for] loop of [FilterSegments]: [count] and [top_segments] are the
    loop-carried locals, returning early is the [break]. *)
Fixpoint FilterSegments_loop (segments : SegmentList) (max_count : Z)
    (count : Z) (top_segments : SegmentList) : SegmentList :=
  match segments with
  | [] => top_segments
  | segment :: rest =>
      if ShouldFilterSegment E segment then
        FilterSegments_loop rest max_count count top_segments
      else
        let top_segments := top_segments ++ [segment] in
        let count := count + 1 in
        if count =? max_count then top_segments
        else FilterSegments_loop rest max_count count top_segments
  end.

Definition FilterSegments (segments : SegmentList) (max_count : Z)
    : SegmentList :=
  FilterSegments_loop segments max_count 0 [].

Definition GetTopSegments (segments : SegmentsInfo) (for_parent : bool)
    : SegmentList :=
  let list : SegmentList := [] in
  let text_classification_segments :=
    if for_parent then text_classification_segments segments
    else GetParentSegments E (text_classification_segments segments) in
  let filtered_text_classification_segments :=
    FilterSegments text_classification_segments
                   kTopTextClassificationSegmentCount in
  let list := list ++ filtered_text_classification_segments in
  let list := list ++ epsilon_greedy_bandit_segments segments in
  let list := list ++ purchase_intent_segments segments in
  list.

Definition GetTopParentChildSegments (segments : SegmentsInfo)
    : SegmentList :=
  GetTopSegments segments (* parent *) false.

Definition GetTopParentSegments (segments : SegmentsInfo) : SegmentList :=
  GetTopSegments segments (* parent *) true.

(** The claim's reading of [FilterSegments]: the first [n] segments that
    the filter list does not exclude. *)
Definition top_filtered (n : nat) (segments : SegmentList) : SegmentList :=
  take n (List.filter (fun s => negb (ShouldFilterSegment E s)) segments).

End SegmentResolver.
End ad_targeting.

(** ** Predictor and scorer (eligible_ads_predictor_util.h) *)

(** What ends a scoring run without a value: [std::vector::at] out of
    range, and a division whose divisor is zero.  The second one is kept
    apart so that its absence can be stated. *)
Inductive Abort := out_of_range | division_by_zero.

Definition Result (A : Type) : Type := (Abort + A)%type.

Definition ret {A} (a : A) : Result A := inr a.

Definition bind {A B} (c : Result A) (k : A -> Result B) : Result B :=
  match c with
  | inl e => inl e
  | inr a => k a
  end.

Notation "'do' x <- c ; k" := (bind c (fun x => k))
  (at level 10, x name, c at level 100, k at level 200).

(** [enum AdPredictorWeightIndex]. *)
Inductive AdPredictorWeightIndex :=
| kMatchesIntentChildSegment
| kMatchesIntentParentSegment
| kMatchesInterestChildSegment
| kMatchesInterestParentSegment
| kAdLastSeenInHours
| kAdvertiserLastSeenInHours
| kPriority.

Definition weight_index (i : AdPredictorWeightIndex) : nat :=
  match i with
  | kMatchesIntentChildSegment => 0
  | kMatchesIntentParentSegment => 1
  | kMatchesInterestChildSegment => 2
  | kMatchesInterestParentSegment => 3
  | kAdLastSeenInHours => 4
  | kAdvertiserLastSeenInHours => 5
  | kPriority => 6
  end.

(** [base::Time::kHoursPerDay]. *)
Definition kHoursPerDay : Z := 24.

(** Modelled from the spec: [SetIntersection] of container_util.h, which
    is not among the embedded files.  The spec describes it as the set
    intersection of two segment lists: the members of [lhs] that also
    occur in [rhs]. *)
Definition SetIntersection (lhs rhs : SegmentList) : SegmentList :=
  list_intersection lhs rhs.

Section Predictor.

Context {double : Type} `{DoubleOps double} (E : Env double).

(** [weights.at(index)]. *)
Definition weights_at (weights : list double) (i : AdPredictorWeightIndex)
    : Result double :=
  match weights !! weight_index i with
  | Some w => ret w
  | None => inl out_of_range
  end.

(** [x / divisor] for an integer divisor converted to [double]; a zero
    divisor is reported instead of being computed with. *)
Definition divide (x : double) (divisor : Z) : Result double :=
  if divisor =? 0 then inl division_by_zero
  else ret (d_div x (d_of_int divisor)).

Definition is_empty {A} (l : list A) : bool :=
  match l with [] => true | _ => false end.

Definition ComputePredictorFeatures (ad_predictor : AdPredictorInfo double)
    (ad_events : AdEventList) (interest_segments intent_segments : SegmentList)
    : AdPredictorInfo double :=
  let intent_child_segments_intersection :=
    SetIntersection intent_segments (segments ad_predictor) in
  let m_does_match_intent_child_segments :=
    if is_empty intent_child_segments_intersection then false else true in
  let parent_intent_segments := GetParentSegments E interest_segments in
  let intent_parent_segments_intersection :=
    SetIntersection parent_intent_segments (segments ad_predictor) in
  let m_does_match_intent_parent_segments :=
    if is_empty intent_parent_segments_intersection then false else true in
  let interest_child_segments_intersection :=
    SetIntersection interest_segments (segments ad_predictor) in
  let m_does_match_interest_child_segments :=
    if is_empty interest_child_segments_intersection then false else true in
  let parent_interest_segments := GetParentSegments E interest_segments in
  let interest_parent_segments_intersection :=
    SetIntersection parent_interest_segments (segments ad_predictor) in
  let m_does_match_interest_parent_segments :=
    if is_empty interest_parent_segments_intersection then false else true in
  let now := Time_Now E in
  let last_seen_ad := GetLastSeenAdTime E ad_events (creative_ad ad_predictor) in
  let m_ad_last_seen_hours_ago :=
    match last_seen_ad with
    | Some t => TimeDelta_InHours E (now - t)
    | None => 0
    end in
  let last_seen_advertiser :=
    GetLastSeenAdvertiserTime E ad_events (creative_ad ad_predictor) in
  let m_advertiser_last_seen_hours_ago :=
    match last_seen_advertiser with
    | Some t => TimeDelta_InHours E (now - t)
    | None => 0
    end in
  {| creative_ad := creative_ad ad_predictor;
     segments := segments ad_predictor;
     does_match_intent_child_segments := m_does_match_intent_child_segments;
     does_match_intent_parent_segments := m_does_match_intent_parent_segments;
     does_match_interest_child_segments :=
       m_does_match_interest_child_segments;
     does_match_interest_parent_segments :=
       m_does_match_interest_parent_segments;
     ad_last_seen_hours_ago := m_ad_last_seen_hours_ago;
     advertiser_last_seen_hours_ago := m_advertiser_last_seen_hours_ago;
     score := score ad_predictor |}.

Definition ComputePredictorScore (ad_predictor : AdPredictorInfo double)
    : Result double :=
  let weights := GetAdPredictorWeights E in
  let score := d_zero in
  do score <-
    (if does_match_intent_child_segments ad_predictor then
       do w <- weights_at weights kMatchesIntentChildSegment ;
       ret (d_add score w)
     else if does_match_intent_parent_segments ad_predictor then
       do w <- weights_at weights kMatchesIntentParentSegment ;
       ret (d_add score w)
     else ret score) ;
  do score <-
    (if does_match_interest_child_segments ad_predictor then
       do w <- weights_at weights kMatchesInterestChildSegment ;
       ret (d_add score w)
     else if does_match_interest_parent_segments ad_predictor then
       do w <- weights_at weights kMatchesInterestParentSegment ;
       ret (d_add score w)
     else ret score) ;
  do score <-
    (if ad_last_seen_hours_ago ad_predictor <=? kHoursPerDay then
       do w <- weights_at weights kAdLastSeenInHours ;
       do q <- divide (d_mul w (d_of_int (ad_last_seen_hours_ago ad_predictor)))
                   kHoursPerDay ;
       ret (d_add score q)
     else ret score) ;
  do score <-
    (if advertiser_last_seen_hours_ago ad_predictor <=? kHoursPerDay then
       do w <- weights_at weights kAdvertiserLastSeenInHours ;
       do q <- divide
              (d_mul w (d_of_int (advertiser_last_seen_hours_ago ad_predictor)))
              kHoursPerDay ;
       ret (d_add score q)
     else ret score) ;
  do score <-
    (if (0 <? priority (creative_ad ad_predictor))%N then
       do w <- weights_at weights kPriority ;
       do q <- divide w (Z.of_N (priority (creative_ad ad_predictor))) ;
       ret (d_add score q)
     else ret score) ;
  ret (d_mul score (ptr (creative_ad ad_predictor))).

(** [mutable_ad_predictor.score = ...]. *)
Definition set_score (p : AdPredictorInfo double) (s : double)
    : AdPredictorInfo double :=
  {| creative_ad := creative_ad p;
     segments := segments p;
     does_match_intent_child_segments := does_match_intent_child_segments p;
     does_match_intent_parent_segments := does_match_intent_parent_segments p;
     does_match_interest_child_segments :=
       does_match_interest_child_segments p;
     does_match_interest_parent_segments :=
       does_match_interest_parent_segments p;
     ad_last_seen_hours_ago := ad_last_seen_hours_ago p;
     advertiser_last_seen_hours_ago := advertiser_last_seen_hours_ago p;
     score := s |}.

(** [std::map::insert]: the map is kept in key order and an existing key
    keeps its value. *)
Fixpoint map_insert (k : string) (v : AdPredictorInfo double)
    (m : CreativeAdPredictorMap double) : CreativeAdPredictorMap double :=
  match m with
  | [] => [(k, v)]
  | (k', v') :: rest =>
      match String.compare k k' with
      | Lt => (k, v) :: m
      | Eq => m
      | Gt => (k', v') :: map_insert k v rest
      end
  end.

Definition ComputePredictorFeaturesAndScores
    (ads : CreativeAdPredictorMap double) (ad_events : AdEventList)
    (interest_segments intent_segments : SegmentList)
    : Result (CreativeAdPredictorMap double) :=
  fold_left
    (fun acc ad =>
       do ads_with_features <- acc ;
       let ad_predictor := snd ad in
       let mutable_ad_predictor :=
         ComputePredictorFeatures ad_predictor ad_events interest_segments
                                  intent_segments in
       do s <- ComputePredictorScore mutable_ad_predictor ;
       let mutable_ad_predictor := set_score mutable_ad_predictor s in
       ret (map_insert
              (creative_instance_id (creative_ad mutable_ad_predictor))
              mutable_ad_predictor ads_with_features))
    ads (ret []).

End Predictor.

(** ** Selection orchestrator and eligibility pipeline
       (eligible_inline_content_ads.cc) *)

(** A [void] function that reports through a callback: given the log of
    store calls so far it yields whatever its continuation yields.  A
    scoring run that aborts never reaches the callback. *)
Definition Async (R : Type) : Type := CallLog -> Result R.

Module inline_content_ads.
Section Engine.

Context {double : Type} `{DoubleOps double} (E : Env double).
Context {R : Type}.

(** [CreativeAdInfo()]: empty strings and containers, zero numbers. *)
Definition default_CreativeAdInfo : CreativeAdInfo double :=
  {| creative_instance_id := "";
     creative_set_id := "";
     campaign_id := "";
     advertiser_id := "";
     start_at_timestamp := 0;
     end_at_timestamp := 0;
     daily_cap := 0;
     priority := 0;
     ptr := d_zero;
     per_day := 0;
     per_week := 0;
     per_month := 0;
     total_max := 0;
     segment := "";
     geo_targets := [] |}.

(** The one piece of state of [class EligibleAds]; the two resource
    pointers it also holds only feed [ShouldExcludeAd]. *)
Record EligibleAds := {
  last_served_creative_ad_ : CreativeAdInfo double
}.

Definition SetLastServedAd (this : EligibleAds)
    (creative_ad : CreativeAdInfo double) : EligibleAds :=
  {| last_served_creative_ad_ := creative_ad |}.

Definition ShouldCapLastServedAd (ads : CreativeAdList double) : bool :=
  negb (length ads =? 1)%nat.

(** [GetForSegmentsCallback] and [GetForFeaturesCallback]. *)
Definition GetForSegmentsCallback : Type :=
  bool -> CreativeAdList double -> Async R.

Definition GetForFeaturesCallback : Type :=
  bool -> option (CreativeAdInfo double) -> Async R.

(** The asynchronous stores: each call is logged, then the continuation
    gets the store's answer. *)
Definition AdEvents_table_GetAll (k : bool -> AdEventList -> Async R)
    : Async R :=
  fun log =>
    let '(success, ad_events) := db_AdEvents_GetAll E in
    k success ad_events (log ++ [AdEvents_GetAll]).

Definition AdsClient_GetBrowsingHistory (max_count days_ago : Z)
    (k : BrowsingHistoryList -> Async R) : Async R :=
  fun log =>
    k (client_GetBrowsingHistory E max_count days_ago)
      (log ++ [Client_GetBrowsingHistory max_count days_ago]).

Definition CreativeAds_table_GetForDimensions (dimensions : string)
    (k : bool -> CreativeAdList double -> Async R) : Async R :=
  fun log =>
    let '(success, ads) := db_GetForDimensions E dimensions in
    k success ads (log ++ [CreativeAds_GetForDimensions dimensions]).

Definition CreativeAds_table_GetForSegmentsAndDimensions
    (segments : SegmentList) (dimensions : string)
    (k : bool -> SegmentList -> CreativeAdList double -> Async R) : Async R :=
  fun log =>
    let '(success, segments', ads) :=
      db_GetForSegmentsAndDimensions E segments dimensions in
    k success segments' ads
      (log ++ [CreativeAds_GetForSegmentsAndDimensions segments dimensions]).

(** [std::remove_if] followed by [erase]: the ads for which the predicate
    is false, in their order. *)
Definition ApplyFrequencyCapping (this : EligibleAds)
    (ads : CreativeAdList double)
    (last_served_creative_ad : CreativeAdInfo double)
    (ad_events : AdEventList) (browsing_history : BrowsingHistoryList)
    : CreativeAdList double :=
  let eligible_ads := ads in
  List.filter
    (fun ad =>
       negb (ShouldExcludeAd E ad_events browsing_history ad
             || String.eqb (creative_instance_id ad)
                           (creative_instance_id last_served_creative_ad)))
    eligible_ads.

Definition FilterIneligibleAds (this : EligibleAds)
    (ads : CreativeAdList double) (ad_events : AdEventList)
    (browsing_history : BrowsingHistoryList) : CreativeAdList double :=
  if is_empty ads then []
  else
    let eligible_ads := ads in
    let eligible_ads :=
      FilterSeenAdvertisersAndRoundRobinIfNeeded E eligible_ads
                                                 kInlineContentAd in
    let eligible_ads :=
      FilterSeenAdsAndRoundRobinIfNeeded E eligible_ads kInlineContentAd in
    let eligible_ads :=
      ApplyFrequencyCapping this eligible_ads
        (if ShouldCapLastServedAd ads then last_served_creative_ad_ this
         else default_CreativeAdInfo)
        ad_events browsing_history in
    let eligible_ads := PaceAds E eligible_ads in
    let eligible_ads := PrioritizeAds E eligible_ads in
    eligible_ads.

(** [ad_targeting::kUntargeted]. *)
Definition kUntargeted : string := "untargeted".

Definition GetForUntargeted (this : EligibleAds) (dimensions : string)
    (ad_events : AdEventList) (browsing_history : BrowsingHistoryList)
    (callback : GetForSegmentsCallback) : Async R :=
  let segments := [kUntargeted] in
  CreativeAds_table_GetForSegmentsAndDimensions segments dimensions
    (fun success segments ads =>
       let eligible_ads :=
         FilterIneligibleAds this ads ad_events browsing_history in
       callback (* was_allowed *) true eligible_ads).

Definition GetForParentSegments (this : EligibleAds) (segments : SegmentList)
    (dimensions : string) (ad_events : AdEventList)
    (browsing_history : BrowsingHistoryList)
    (callback : GetForSegmentsCallback) : Async R :=
  let parent_segments := GetParentSegments E segments in
  if bool_decide (parent_segments = segments) then
    callback (* was_allowed *) false []
  else
    CreativeAds_table_GetForSegmentsAndDimensions parent_segments dimensions
      (fun success segments ads =>
         let eligible_ads :=
           FilterIneligibleAds this ads ad_events browsing_history in
         if is_empty eligible_ads then
           GetForUntargeted this dimensions ad_events browsing_history
                            callback
         else callback (* was_allowed *) true eligible_ads).

(** The lambda's own [segments] parameter, the list the store hands back,
    is the one passed on to the parent tier. *)
Definition GetForParentChildSegments (this : EligibleAds)
    (segments : SegmentList) (dimensions : string) (ad_events : AdEventList)
    (browsing_history : BrowsingHistoryList)
    (callback : GetForSegmentsCallback) : Async R :=
  CreativeAds_table_GetForSegmentsAndDimensions segments dimensions
    (fun success segments ads =>
       let eligible_ads :=
         FilterIneligibleAds this ads ad_events browsing_history in
       if is_empty eligible_ads then
         GetForParentSegments this segments dimensions ad_events
                              browsing_history callback
       else callback (* was_allowed *) true eligible_ads).

Definition GetForSegments (this : EligibleAds) (segments : SegmentList)
    (dimensions : string) (callback : GetForSegmentsCallback) : Async R :=
  AdEvents_table_GetAll
    (fun success ad_events =>
       if negb success then callback (* was_allowed *) false []
       else
         let max_count := GetBrowsingHistoryMaxCount E in
         let days_ago := GetBrowsingHistoryDaysAgo E in
         AdsClient_GetBrowsingHistory max_count days_ago
           (fun history =>
              if is_empty segments then
                GetForUntargeted this dimensions ad_events history callback
              else
                GetForParentChildSegments this segments dimensions ad_events
                                          history callback)).

Definition ChooseAd (this : EligibleAds)
    (eligible_ads : CreativeAdList double) (ad_events : AdEventList)
    (interest_segments intent_segments : SegmentList)
    (callback : GetForFeaturesCallback) : Async R :=
  fun log =>
    let ads := GroupEligibleAdsByCreativeInstanceId E eligible_ads in
    do ads_with_features <-
      ComputePredictorFeaturesAndScores E ads ad_events interest_segments
                                        intent_segments ;
    let ad := SampleFromAds E ads_with_features in
    callback (* was_allowed *) true ad log.

Definition GetEligibleAds (this : EligibleAds)
    (interest_segments intent_segments : SegmentList)
    (ad_events : AdEventList) (browsing_history : BrowsingHistoryList)
    (dimensions : string) (callback : GetForFeaturesCallback) : Async R :=
  CreativeAds_table_GetForDimensions dimensions
    (fun success ads =>
       if negb success then callback (* was_allowed *) false None
       else if is_empty ads then callback (* was_allowed *) true None
       else
         let eligible_ads :=
           ApplyFrequencyCapping this ads
             (if ShouldCapLastServedAd ads then last_served_creative_ad_ this
              else default_CreativeAdInfo)
             ad_events browsing_history in
         if is_empty eligible_ads then callback (* was_allowed *) true None
         else
           ChooseAd this eligible_ads ad_events interest_segments
                    intent_segments callback).

Definition GetFromAdPredictorScores (this : EligibleAds)
    (interest_segments intent_segments : SegmentList) (dimensions : string)
    (callback : GetForFeaturesCallback) : Async R :=
  AdEvents_table_GetAll
    (fun success ad_events =>
       if negb success then callback (* was_allowed *) false None
       else
         let max_count := GetBrowsingHistoryMaxCount E in
         let days_ago := GetBrowsingHistoryDaysAgo E in
         AdsClient_GetBrowsingHistory max_count days_ago
           (fun history =>
              GetEligibleAds this interest_segments intent_segments ad_events
                             history dimensions callback)).

End Engine.
End inline_content_ads.

(** ** Concrete collaborators

    Stand-ins for the collaborators, used to run the engine on concrete
    inputs.  [double] is read as a rational number here. *)

Module Scenario.

#[global] Instance Q_DoubleOps : DoubleOps Q := {|
  d_zero := 0%Q;
  d_add := Qplus;
  d_mul := Qmult;
  d_div := Qdiv;
  d_of_int := inject_Z
|}.

(** Modelled from the spec: [GetParentSegments] of
    ad_targeting_segment_util.h, which is not among the embedded files.
    A segment containing [-] is cut before its first [-], any other segment
    passes through; order is kept and nothing is deduplicated. *)
Fixpoint parent_of_segment (s : string) : string :=
  match s with
  | EmptyString => EmptyString
  | String c rest =>
      if Ascii.eqb c "-"%char then EmptyString
      else String c (parent_of_segment rest)
  end.

Definition GetParentSegments_spec (segments : SegmentList) : SegmentList :=
  map parent_of_segment segments.

(** Modelled from the spec: stage 1 of the eligibility pipeline
    (seen_advertisers.h).  Ads of an advertiser already served are dropped,
    unless that leaves nothing, in which case the round starts over with
    the full list. *)
Definition FilterSeenAdvertisers_spec (seen : list string)
    (ads : CreativeAdList Q) (_ : AdType) : CreativeAdList Q :=
  let unseen :=
    List.filter (fun ad => negb (bool_decide (advertiser_id ad ∈ seen))) ads in
  if is_empty unseen then ads else unseen.

(** Modelled from the spec: stage 2 of the eligibility pipeline
    (seen_ads.h), the same policy per creative instance. *)
Definition FilterSeenAds_spec (seen : list string)
    (ads : CreativeAdList Q) (_ : AdType) : CreativeAdList Q :=
  let unseen :=
    List.filter
      (fun ad => negb (bool_decide (creative_instance_id ad ∈ seen))) ads in
  if is_empty unseen then ads else unseen.

(** Modelled from the spec: stage 5 of the eligibility pipeline
    (ad_priority.h).  Ads are grouped by priority value and the group with
    the smallest value advances. *)
Definition PrioritizeAds_spec (ads : CreativeAdList Q) : CreativeAdList Q :=
  match ads with
  | [] => []
  | ad :: rest =>
      let top := fold_right (fun a p => N.min (priority a) p)
                            (priority ad) rest in
      List.filter (fun a => (priority a =? top)%N) ads
  end.

(** Modelled from the spec: [GroupEligibleAdsByCreativeInstanceId]
    (eligible_ads_util.h): one predictor per creative instance id, holding
    the ad and the segment it targets. *)
Definition GroupEligibleAdsByCreativeInstanceId_spec
    (ads : CreativeAdList Q) : CreativeAdPredictorMap Q :=
  fold_left
    (fun m ad =>
       map_insert (creative_instance_id ad)
         {| creative_ad := ad;
            segments := [segment ad];
            does_match_intent_child_segments := false;
            does_match_intent_parent_segments := false;
            does_match_interest_child_segments := false;
            does_match_interest_parent_segments := false;
            ad_last_seen_hours_ago := 0;
            advertiser_last_seen_hours_ago := 0;
            score := 0%Q |} m)
    ads [].

(** One outcome of the random draw of [SampleFromAds] (sample_ads.h): the
    draw lands on the first candidate of the map. *)
Definition SampleFromAds_first (ads : CreativeAdPredictorMap Q)
    : option (CreativeAdInfo Q) :=
  match ads with
  | [] => None
  | (_, p) :: _ => Some (creative_ad p)
  end.

(** A catalog entry shaped like the unit test fixture. *)
Definition mk_ad (id advertiser seg : string) (prio : N) : CreativeAdInfo Q :=
  {| creative_instance_id := id;
     creative_set_id := "set-" ++ id;
     campaign_id := "campaign-" ++ id;
     advertiser_id := advertiser;
     start_at_timestamp := 0;
     end_at_timestamp := 4102444800;
     daily_cap := 1;
     priority := prio;
     ptr := 1%Q;
     per_day := 1;
     per_week := 1;
     per_month := 1;
     total_max := 1;
     segment := seg;
     geo_targets := ["US"] |}.

(** A creative store holding [catalog], an ad-event store that answers
    [events_ok], no exclusion rule firing, no pacing, and the advertisers
    in [seen_advertisers] already served. *)
Definition env (catalog : CreativeAdList Q) (events_ok : bool)
    (seen_advertisers : list string) : Env Q :=
  {| GetParentSegments := GetParentSegments_spec;
     ShouldFilterSegment := fun _ => false;
     GetBrowsingHistoryMaxCount := 5000;
     GetBrowsingHistoryDaysAgo := 180;
     GetAdPredictorWeights := [1; 1; 1; 1; 1; 1; 1]%Q;
     db_AdEvents_GetAll := (events_ok, []);
     client_GetBrowsingHistory := fun _ _ => [];
     db_GetForDimensions := fun _ => (true, catalog);
     db_GetForSegmentsAndDimensions := fun segs _ =>
       (true, segs,
        List.filter (fun ad => bool_decide (segment ad ∈ segs)) catalog);
     FilterSeenAdvertisersAndRoundRobinIfNeeded :=
       FilterSeenAdvertisers_spec seen_advertisers;
     FilterSeenAdsAndRoundRobinIfNeeded := FilterSeenAds_spec [];
     ShouldExcludeAd := fun _ _ _ => false;
     PaceAds := fun ads => ads;
     PrioritizeAds := PrioritizeAds_spec;
     GroupEligibleAdsByCreativeInstanceId :=
       GroupEligibleAdsByCreativeInstanceId_spec;
     SampleFromAds := SampleFromAds_first;
     Time_Now := 0;
     TimeDelta_InHours := fun d => Z.quot d 3600000000;
     GetLastSeenAdTime := fun _ _ => None;
     GetLastSeenAdvertiserTime := fun _ _ => None |}.

(** The callback of a caller that just keeps what it is handed. *)
Definition report {A} (was_allowed : bool) (payload : A)
    : Async (bool * A * CallLog) :=
  fun log => ret (was_allowed, payload, log).

Definition engine (last_served : CreativeAdInfo Q)
    : inline_content_ads.EligibleAds :=
  {| inline_content_ads.last_served_creative_ad_ := last_served |}.

(** The fixtures of the unit tests, and what [GetForSegments] hands to
    the callback on a store holding [catalog]. *)
Definition tech : CreativeAdInfo Q := mk_ad "1" "A" "technology & computing" 1.
Definition software : CreativeAdInfo Q :=
  mk_ad "2" "B" "technology & computing-software" 1.
Definition untargeted : CreativeAdInfo Q := mk_ad "3" "C" "untargeted" 1.

Definition answer (catalog : CreativeAdList Q) (segments : SegmentList)
    : option (bool * CreativeAdList Q) :=
  match inline_content_ads.GetForSegments (env catalog true [])
          (engine inline_content_ads.default_CreativeAdInfo) segments ""
          report [] with
  | inr (allowed, ads, _) => Some (allowed, ads)
  | inl _ => None
  end.

End Scenario.

(** ** The claims' readings

    Definitions that follow the wording of the specification, to be
    compared with the embedded code. *)

Section Readings.

Context {double : Type} `{DoubleOps double} (E : Env double).

(** "Only one segment-match weight contributes and the child-match weight
    wins". *)
Definition match_term (w_child w_parent : double) (child parent : bool)
    : option double :=
  if child then Some w_child
  else if parent then Some w_parent
  else None.

(** "weight * hours_ago / 24 only when hours_ago is at most 24". *)
Definition recency_term (w : double) (hours_ago : Z) : option double :=
  if hours_ago <=? 24
  then Some (d_div (d_mul w (d_of_int hours_ago)) (d_of_int 24))
  else None.

(** "weight / priority only when priority > 0". *)
Definition priority_term (w : double) (prio : N) : option double :=
  if (0 <? prio)%N then Some (d_div w (d_of_int (Z.of_N prio))) else None.

(** A term that does not contribute leaves the sum as it is. *)
Definition add_term (acc : double) (t : option double) : double :=
  match t with
  | Some x => d_add acc x
  | None => acc
  end.

(** The sum of the four terms that come before the priority term. *)
Definition sum_before_priority (w0 w1 w2 w3 w4 w5 : double)
    (p : AdPredictorInfo double) : double :=
  fold_left add_term
    [ match_term w0 w1 (does_match_intent_child_segments p)
                       (does_match_intent_parent_segments p);
      match_term w2 w3 (does_match_interest_child_segments p)
                       (does_match_interest_parent_segments p);
      recency_term w4 (ad_last_seen_hours_ago p);
      recency_term w5 (advertiser_last_seen_hours_ago p) ]
    d_zero.

(** "The whole sum is multiplied by the ad's ptr". *)
Definition score_formula (w0 w1 w2 w3 w4 w5 w6 : double)
    (p : AdPredictorInfo double) : double :=
  d_mul (add_term (sum_before_priority w0 w1 w2 w3 w4 w5 p)
                  (priority_term w6 (priority (creative_ad p))))
        (ptr (creative_ad p)).

(** What one cascade tier yields: the store's ads for [segments] after
    [FilterIneligibleAds]. *)
Definition tier (this : inline_content_ads.EligibleAds)
    (segments : SegmentList) (dimensions : string) (ad_events : AdEventList)
    (history : BrowsingHistoryList) : CreativeAdList double :=
  inline_content_ads.FilterIneligibleAds E this
    (snd (db_GetForSegmentsAndDimensions E segments dimensions))
    ad_events history.

(** The segment list the store hands back with its answer. *)
Definition returned_segments (segments : SegmentList) (dimensions : string)
    : SegmentList :=
  snd (fst (db_GetForSegmentsAndDimensions E segments dimensions)).

(** "Returning the first tier whose list is non-empty". *)
Definition first_nonempty (tiers : list (CreativeAdList double))
    : CreativeAdList double :=
  match List.find (fun t => negb (is_empty t)) tiers with
  | Some t => t
  | None => []
  end.

(** The ads of the specified cascade: parent-child, then parent, then
    untargeted. *)
Definition cascade_as_specified (this : inline_content_ads.EligibleAds)
    (segments : SegmentList) (dimensions : string) (ad_events : AdEventList)
    (history : BrowsingHistoryList) : CreativeAdList double :=
  first_nonempty
    [ tier this segments dimensions ad_events history;
      tier this (GetParentSegments E (returned_segments segments dimensions))
           dimensions ad_events history;
      tier this [inline_content_ads.kUntargeted] dimensions ad_events
           history ].

(** The creative-store calls of one cascade, in the order issued: a later
    tier is queried only when the tier before it yielded nothing. *)
Definition cascade_calls (this : inline_content_ads.EligibleAds)
    (segments : SegmentList) (dimensions : string) (ad_events : AdEventList)
    (history : BrowsingHistoryList) : CallLog :=
  let parents := GetParentSegments E (returned_segments segments dimensions) in
  CreativeAds_GetForSegmentsAndDimensions segments dimensions
  :: (if is_empty (tier this segments dimensions ad_events history) then
        CreativeAds_GetForSegmentsAndDimensions parents dimensions
        :: (if is_empty (tier this parents dimensions ad_events history)
            then [CreativeAds_GetForSegmentsAndDimensions
                    [inline_content_ads.kUntargeted] dimensions]
            else [])
      else []).

(** [GetEligibleAds] as the specification words it: the whole eligibility
    pipeline is applied to the catalog before grouping, scoring and
    sampling. *)
Definition GetEligibleAds_as_specified {R : Type}
    (this : inline_content_ads.EligibleAds)
    (interest_segments intent_segments : SegmentList)
    (ad_events : AdEventList) (browsing_history : BrowsingHistoryList)
    (dimensions : string)
    (callback : bool -> option (CreativeAdInfo double) -> Async R)
    : Async R :=
  inline_content_ads.CreativeAds_table_GetForDimensions E dimensions
    (fun success ads =>
       if negb success then callback false None
       else
         let eligible_ads :=
           inline_content_ads.FilterIneligibleAds E this ads ad_events
                                                  browsing_history in
         if is_empty eligible_ads then callback true None
         else
           inline_content_ads.ChooseAd E this eligible_ads ad_events
             interest_segments intent_segments callback).

Definition GetFromAdPredictorScores_as_specified {R : Type}
    (this : inline_content_ads.EligibleAds)
    (interest_segments intent_segments : SegmentList) (dimensions : string)
    (callback : bool -> option (CreativeAdInfo double) -> Async R)
    : Async R :=
  inline_content_ads.AdEvents_table_GetAll E
    (fun success ad_events =>
       if negb success then callback false None
       else
         inline_content_ads.AdsClient_GetBrowsingHistory E
           (GetBrowsingHistoryMaxCount E) (GetBrowsingHistoryDaysAgo E)
           (fun history =>
              GetEligibleAds_as_specified this interest_segments
                intent_segments ad_events history dimensions callback)).

(** The stages before frequency capping, as [FilterIneligibleAds] chains
    them. *)
Definition prior_stages (ads : CreativeAdList double) : CreativeAdList double :=
  FilterSeenAdsAndRoundRobinIfNeeded E
    (FilterSeenAdvertisersAndRoundRobinIfNeeded E ads kInlineContentAd)
    kInlineContentAd.

(** The stages outside the embedded files only ever remove ads. *)
Definition stages_only_remove : Prop :=
  (forall l t, sublist (FilterSeenAdvertisersAndRoundRobinIfNeeded E l t) l)
  /\ (forall l t, sublist (FilterSeenAdsAndRoundRobinIfNeeded E l t) l)
  /\ (forall l, sublist (PaceAds E l) l)
  /\ (forall l, sublist (PrioritizeAds E l) l).

(** The stages outside the embedded files leave the list [l] as it is. *)
Definition stages_keep (l : CreativeAdList double) : Prop :=
  FilterSeenAdvertisersAndRoundRobinIfNeeded E l kInlineContentAd = l
  /\ FilterSeenAdsAndRoundRobinIfNeeded E l kInlineContentAd = l
  /\ PaceAds E l = l
  /\ PrioritizeAds E l = l.

End Readings.

Abbreviation query := CreativeAds_GetForSegmentsAndDimensions.
Abbreviation default_ad := inline_content_ads.default_CreativeAdInfo.

(** The browsing history the engine asks for, and the call that asks. *)
Abbreviation history_of E :=
  (client_GetBrowsingHistory E (GetBrowsingHistoryMaxCount E)
                             (GetBrowsingHistoryDaysAgo E)).
Abbreviation history_call E :=
  (Client_GetBrowsingHistory (GetBrowsingHistoryMaxCount E)
                             (GetBrowsingHistoryDaysAgo E)).

(** ** Further code of the embedded files *)



Section FurtherReadings.

Context {double : Type} `{DoubleOps double}.

(** The environment [E] with the creative store reporting [ok] with every
    answer to [GetForSegmentsAndDimensions], the answer itself unchanged. *)
Definition with_creative_store_reporting (ok : bool) (E : Env double)
    : Env double :=
  {| GetParentSegments := GetParentSegments E;
     ShouldFilterSegment := ShouldFilterSegment E;
     GetBrowsingHistoryMaxCount := GetBrowsingHistoryMaxCount E;
     GetBrowsingHistoryDaysAgo := GetBrowsingHistoryDaysAgo E;
     GetAdPredictorWeights := GetAdPredictorWeights E;
     db_AdEvents_GetAll := db_AdEvents_GetAll E;
     client_GetBrowsingHistory := client_GetBrowsingHistory E;
     db_GetForDimensions := db_GetForDimensions E;
     db_GetForSegmentsAndDimensions := fun segments dimensions =>
       (ok,
        snd (fst (db_GetForSegmentsAndDimensions E segments dimensions)),
        snd (db_GetForSegmentsAndDimensions E segments dimensions));
     FilterSeenAdvertisersAndRoundRobinIfNeeded :=
       FilterSeenAdvertisersAndRoundRobinIfNeeded E;
     FilterSeenAdsAndRoundRobinIfNeeded :=
       FilterSeenAdsAndRoundRobinIfNeeded E;
     ShouldExcludeAd := ShouldExcludeAd E;
     PaceAds := PaceAds E;
     PrioritizeAds := PrioritizeAds E;
     GroupEligibleAdsByCreativeInstanceId :=
       GroupEligibleAdsByCreativeInstanceId E;
     SampleFromAds := SampleFromAds E;
     Time_Now := Time_Now E;
     TimeDelta_InHours := TimeDelta_InHours E;
     GetLastSeenAdTime := GetLastSeenAdTime E;
     GetLastSeenAdvertiserTime := GetLastSeenAdvertiserTime E |}.

(** The environment [E] with [ShouldFilterSegment] answering from the
    list [filtered]. *)
Definition with_filter_list (filtered : list string) (E : Env double)
    : Env double :=
  {| GetParentSegments := GetParentSegments E;
     ShouldFilterSegment := fun s => bool_decide (s ∈ filtered);
     GetBrowsingHistoryMaxCount := GetBrowsingHistoryMaxCount E;
     GetBrowsingHistoryDaysAgo := GetBrowsingHistoryDaysAgo E;
     GetAdPredictorWeights := GetAdPredictorWeights E;
     db_AdEvents_GetAll := db_AdEvents_GetAll E;
     client_GetBrowsingHistory := client_GetBrowsingHistory E;
     db_GetForDimensions := db_GetForDimensions E;
     db_GetForSegmentsAndDimensions := db_GetForSegmentsAndDimensions E;
     FilterSeenAdvertisersAndRoundRobinIfNeeded :=
       FilterSeenAdvertisersAndRoundRobinIfNeeded E;
     FilterSeenAdsAndRoundRobinIfNeeded :=
       FilterSeenAdsAndRoundRobinIfNeeded E;
     ShouldExcludeAd := ShouldExcludeAd E;
     PaceAds := PaceAds E;
     PrioritizeAds := PrioritizeAds E;
     GroupEligibleAdsByCreativeInstanceId :=
       GroupEligibleAdsByCreativeInstanceId E;
     SampleFromAds := SampleFromAds E;
     Time_Now := Time_Now E;
     TimeDelta_InHours := TimeDelta_InHours E;
     GetLastSeenAdTime := GetLastSeenAdTime E;
     GetLastSeenAdvertiserTime := GetLastSeenAdvertiserTime E |}.

(** The environment [E] with [weights] as the predictor weight vector. *)
Definition with_weights (weights : list double) (E : Env double)
    : Env double :=
  {| GetParentSegments := GetParentSegments E;
     ShouldFilterSegment := ShouldFilterSegment E;
     GetBrowsingHistoryMaxCount := GetBrowsingHistoryMaxCount E;
     GetBrowsingHistoryDaysAgo := GetBrowsingHistoryDaysAgo E;
     GetAdPredictorWeights := weights;
     db_AdEvents_GetAll := db_AdEvents_GetAll E;
     client_GetBrowsingHistory := client_GetBrowsingHistory E;
     db_GetForDimensions := db_GetForDimensions E;
     db_GetForSegmentsAndDimensions := db_GetForSegmentsAndDimensions E;
     FilterSeenAdvertisersAndRoundRobinIfNeeded :=
       FilterSeenAdvertisersAndRoundRobinIfNeeded E;
     FilterSeenAdsAndRoundRobinIfNeeded :=
       FilterSeenAdsAndRoundRobinIfNeeded E;
     ShouldExcludeAd := ShouldExcludeAd E;
     PaceAds := PaceAds E;
     PrioritizeAds := PrioritizeAds E;
     GroupEligibleAdsByCreativeInstanceId :=
       GroupEligibleAdsByCreativeInstanceId E;
     SampleFromAds := SampleFromAds E;
     Time_Now := Time_Now E;
     TimeDelta_InHours := TimeDelta_InHours E;
     GetLastSeenAdTime := GetLastSeenAdTime E;
     GetLastSeenAdvertiserTime := GetLastSeenAdvertiserTime E |}.

(** Whether [ComputePredictorScore] takes the branch that reads the weight
    at index [i]. *)
Definition reads_weight (p : AdPredictorInfo double)
    (i : AdPredictorWeightIndex) : bool :=
  match i with
  | kMatchesIntentChildSegment => does_match_intent_child_segments p
  | kMatchesIntentParentSegment =>
      negb (does_match_intent_child_segments p)
      && does_match_intent_parent_segments p
  | kMatchesInterestChildSegment => does_match_interest_child_segments p
  | kMatchesInterestParentSegment =>
      negb (does_match_interest_child_segments p)
      && does_match_interest_parent_segments p
  | kAdLastSeenInHours => ad_last_seen_hours_ago p <=? kHoursPerDay
  | kAdvertiserLastSeenInHours =>
      advertiser_last_seen_hours_ago p <=? kHoursPerDay
  | kPriority => (0 <? priority (creative_ad p))%N
  end.

(** The keys of a predictor map strictly increase, as in a [std::map]. *)
Definition keys_increasing (m : CreativeAdPredictorMap double) : Prop :=
  Sorted (fun a b => String.compare (fst a) (fst b) = Lt) m.

(** What the callers of the engine expect of the two helpers of [ChooseAd]
    that are outside the embedded files: grouping yields predictors of ads
    of its list, sampling yields the ad of one of its candidates. *)
Definition groups_ads_of_list (E : Env double) : Prop :=
  forall (ads : CreativeAdList double) k p,
    (k, p) ∈ GroupEligibleAdsByCreativeInstanceId E ads ->
    creative_ad p ∈ ads.

Definition samples_a_candidate (E : Env double) : Prop :=
  forall (m : CreativeAdPredictorMap double) ad,
    SampleFromAds E m = Some ad ->
    exists k p, (k, p) ∈ m /\ creative_ad p = ad.

(** An entry of the scored map: keyed by the instance id of its ad, and
    made from a predictor of [all] by computing its features and score. *)
Definition scored_from (E : Env double)
    (all : CreativeAdPredictorMap double)
    (ad_events : AdEventList) (interest_segments intent_segments : SegmentList)
    (entry : string * AdPredictorInfo double) : Prop :=
  fst entry = creative_instance_id (creative_ad (snd entry))
  /\ exists k0 p0 s,
       (k0, p0) ∈ all
       /\ ComputePredictorScore E
            (ComputePredictorFeatures E p0 ad_events interest_segments
                                      intent_segments)
          = ret s
       /\ snd entry
          = set_score
              (ComputePredictorFeatures E p0 ad_events interest_segments
                                        intent_segments) s.

End FurtherReadings.

(** The segments of a list that are not on the filter list. *)
Abbreviation unfiltered E :=
  (List.filter (fun s => negb (ShouldFilterSegment E s))).

(** One turn of the loop of [ComputePredictorFeaturesAndScores]. *)
Abbreviation score_step E ad_events interest_segments intent_segments :=
  (fun (acc : Result (CreativeAdPredictorMap _))
       (ad : string * AdPredictorInfo _) =>
     do ads_with_features <- acc ;
     let ad_predictor := snd ad in
     let mutable_ad_predictor :=
       ComputePredictorFeatures E ad_predictor ad_events interest_segments
                                intent_segments in
     do s <- ComputePredictorScore E mutable_ad_predictor ;
     let mutable_ad_predictor := set_score mutable_ad_predictor s in
     ret (map_insert
            (creative_instance_id (creative_ad mutable_ad_predictor))
            mutable_ad_predictor ads_with_features)).


(** ** Facts about the segment resolver *)

Section SegmentResolverFacts.

Context {double : Type} (E : Env double).

Lemma FilterSegments_loop_spec (segments : SegmentList) :
  forall (max_count count : Z) (top : SegmentList),
    count < max_count ->
    ad_targeting.FilterSegments_loop E segments max_count count top
    = top ++ take (Z.to_nat (max_count - count))
                  (List.filter (fun s => negb (ShouldFilterSegment E s))
                               segments).
Proof.
  induction segments as [|s rest IH]; intros max_count count top Hlt; simpl.
  - rewrite take_nil, app_nil_r. reflexivity.
  - destruct (ShouldFilterSegment E s); simpl.
    + apply IH. exact Hlt.
    + replace (Z.to_nat (max_count - count))
        with (S (Z.to_nat (max_count - (count + 1)))) by lia.
      simpl. destruct (Z.eqb_spec (count + 1) max_count) as [Heq|Hne].
      * rewrite Heq, Z.sub_diag. simpl. rewrite take_0. reflexivity.
      * rewrite IH by lia. rewrite <- app_assoc. reflexivity.
Qed.

(** [FilterSegments] keeps the first [max_count] segments that are not on
    the filter list. *)
Lemma FilterSegments_top (segments : SegmentList) (max_count : Z) :
  0 < max_count ->
  ad_targeting.FilterSegments E segments max_count
  = ad_targeting.top_filtered E (Z.to_nat max_count) segments.
Proof.
  intros Hpos. unfold ad_targeting.FilterSegments, ad_targeting.top_filtered.
  rewrite FilterSegments_loop_spec by exact Hpos.
  rewrite Z.sub_0_r. reflexivity.
Qed.

(** What the two entry points compute: the parent-child variant reduces the
    text-classification segments to parents, the parent variant does not. *)
Lemma GetTopSegments_variants (info : SegmentsInfo) :
  ad_targeting.GetTopParentChildSegments E info
  = ad_targeting.top_filtered E 3
      (GetParentSegments E (text_classification_segments info))
    ++ epsilon_greedy_bandit_segments info ++ purchase_intent_segments info
  /\ ad_targeting.GetTopParentSegments E info
     = ad_targeting.top_filtered E 3 (text_classification_segments info)
       ++ epsilon_greedy_bandit_segments info ++ purchase_intent_segments info.
Proof.
  unfold ad_targeting.GetTopParentChildSegments,
    ad_targeting.GetTopParentSegments, ad_targeting.GetTopSegments.
  rewrite !FilterSegments_top
    by (unfold ad_targeting.kTopTextClassificationSegmentCount; lia).
  simpl. rewrite <- !app_assoc. split; reflexivity.
Qed.

End SegmentResolverFacts.

(** C3: [GetTopParentChildSegments] is to return the top 3 child-level
    text-classification segments followed by the bandit and purchase-intent
    segments, and [GetTopParentSegments] the same with the
    text-classification segments reduced to parents.  On the profile below
    the code does the opposite: the parent-child variant answers with the
    parent ["technology & computing"], the parent variant with the child
    ["technology & computing-software"]. *)
Theorem GetTopSegments_variants_swapped :
  let info := {| text_classification_segments :=
                   ["technology & computing-software"];
                 epsilon_greedy_bandit_segments := ["bandit"];
                 purchase_intent_segments := ["intent"] |} in
  let E := Scenario.env [] true [] in
  ad_targeting.GetTopParentChildSegments E info
    = ["technology & computing"; "bandit"; "intent"]
  /\ ad_targeting.top_filtered E 3 (text_classification_segments info)
       ++ epsilon_greedy_bandit_segments info ++ purchase_intent_segments info
     = ["technology & computing-software"; "bandit"; "intent"]
  /\ ad_targeting.GetTopParentSegments E info
     = ["technology & computing-software"; "bandit"; "intent"]
  /\ ad_targeting.top_filtered E 3
       (GetParentSegments E (text_classification_segments info))
       ++ epsilon_greedy_bandit_segments info ++ purchase_intent_segments info
     = ["technology & computing"; "bandit"; "intent"].
Proof. repeat split; vm_compute; reflexivity. Qed.

(** ** Facts about the predictor and the scorer *)

Section PredictorFacts.

Context {double : Type} `{DoubleOps double} (E : Env double).

Lemma is_empty_false_iff {A} (l : list A) :
  is_empty l = false <-> exists x, x ∈ l.
Proof.
  destruct l as [|x l]; simpl; split.
  - discriminate.
  - intros [x Hx]. inversion Hx.
  - intros _. exists x. left.
  - reflexivity.
Qed.

(** A flag computed as "the intersection is not empty" holds exactly when
    the two lists share a segment. *)
Lemma intersects_iff (lhs rhs : SegmentList) :
  (if is_empty (SetIntersection lhs rhs) then false else true) = true
  <-> exists s, s ∈ lhs /\ s ∈ rhs.
Proof.
  destruct (is_empty (SetIntersection lhs rhs)) eqn:Hemp.
  - split; [discriminate|]. intros [s Hs].
    apply list_elem_of_intersection in Hs.
    unfold SetIntersection in Hemp.
    destruct (list_intersection lhs rhs); [inversion Hs | discriminate].
  - split; [|reflexivity]. intros _.
    apply is_empty_false_iff in Hemp as [s Hs].
    exists s. apply list_elem_of_intersection. exact Hs.
Qed.

Lemma divide_nonzero (x : double) (d : Z) :
  d <> 0 -> divide x d = ret (d_div x (d_of_int d)).
Proof.
  intros Hd. unfold divide. destruct (Z.eqb_spec d 0); [contradiction|].
  reflexivity.
Qed.

Lemma priority_divisor_nonzero (n : N) :
  (0 <? n)%N = true -> Z.of_N n <> 0.
Proof. intros Hn. apply N.ltb_lt in Hn. lia. Qed.

(** The five guarded additions of [ComputePredictorScore] never report a
    zero divisor: the recency divisor is the constant 24 and the priority
    divisor is only used under [priority > 0]. *)
Lemma ComputePredictorScore_no_zero_divisor (p : AdPredictorInfo double) :
  ComputePredictorScore E p <> inl division_by_zero.
Proof.
  unfold ComputePredictorScore, weights_at.
  destruct (does_match_intent_child_segments p),
    (does_match_intent_parent_segments p),
    (does_match_interest_child_segments p),
    (does_match_interest_parent_segments p),
    (ad_last_seen_hours_ago p <=? kHoursPerDay),
    (advertiser_last_seen_hours_ago p <=? kHoursPerDay),
    (0 <? priority (creative_ad p))%N eqn:Hprio;
    repeat
      (match goal with
       | |- context [GetAdPredictorWeights E !! ?i] =>
           destruct (GetAdPredictorWeights E !! i)
       end; simpl);
    try discriminate;
    rewrite ?(divide_nonzero _ _ (priority_divisor_nonzero _ Hprio));
    simpl; discriminate.
Qed.

Lemma ComputePredictorScore_formula (w0 w1 w2 w3 w4 w5 w6 : double)
    (more : list double) (p : AdPredictorInfo double) :
  GetAdPredictorWeights E = w0 :: w1 :: w2 :: w3 :: w4 :: w5 :: w6 :: more ->
  ComputePredictorScore E p = ret (score_formula w0 w1 w2 w3 w4 w5 w6 p).
Proof.
  intros Hw.
  unfold ComputePredictorScore, score_formula, sum_before_priority,
    match_term, recency_term, priority_term, weights_at.
  rewrite Hw. change kHoursPerDay with 24.
  destruct (does_match_intent_child_segments p),
    (does_match_intent_parent_segments p),
    (does_match_interest_child_segments p),
    (does_match_interest_parent_segments p),
    (ad_last_seen_hours_ago p <=? 24),
    (advertiser_last_seen_hours_ago p <=? 24),
    (0 <? priority (creative_ad p))%N eqn:Hprio;
    simpl;
    rewrite ?(divide_nonzero _ _ (priority_divisor_nonzero _ Hprio));
    reflexivity.
Qed.

(** C5: with the seven weight slots populated, [ComputePredictorScore] is the
    sum in which, per category, one segment-match weight contributes and
    the child weight wins, each recency weight contributes
    [weight * hours_ago / 24] only when [hours_ago <= 24], the priority
    weight contributes [weight / priority] only when [priority > 0], and
    the whole sum is multiplied by the ad's [ptr]. *)
Theorem ComputePredictorScore_is_weighted_sum
    (w0 w1 w2 w3 w4 w5 w6 : double) (more : list double)
    (p : AdPredictorInfo double) :
  GetAdPredictorWeights E = w0 :: w1 :: w2 :: w3 :: w4 :: w5 :: w6 :: more ->
  ComputePredictorScore E p
  = ret (d_mul
           (fold_left add_term
              [ match_term w0 w1 (does_match_intent_child_segments p)
                                 (does_match_intent_parent_segments p);
                match_term w2 w3 (does_match_interest_child_segments p)
                                 (does_match_interest_parent_segments p);
                recency_term w4 (ad_last_seen_hours_ago p);
                recency_term w5 (advertiser_last_seen_hours_ago p);
                priority_term w6 (priority (creative_ad p)) ]
              d_zero)
           (ptr (creative_ad p)))
  /\ (forall parent, match_term w0 w1 true parent = Some w0)
  /\ (forall parent, match_term w2 w3 true parent = Some w2).
Proof.
  intros Hw. split; [|split; reflexivity].
  rewrite (ComputePredictorScore_formula w0 w1 w2 w3 w4 w5 w6 more p Hw).
  reflexivity.
Qed.

(** C6: [ComputePredictorScore] never divides by zero.  With priority 0
    the priority term is skipped and a score is still returned; with
    [priority > 0] the divisor of the priority term is that priority, which
    is not zero. *)
Theorem ComputePredictorScore_never_divides_by_zero
    (p : AdPredictorInfo double) :
  ComputePredictorScore E p <> inl division_by_zero
  /\ forall (w0 w1 w2 w3 w4 w5 w6 : double) (more : list double),
       GetAdPredictorWeights E = w0 :: w1 :: w2 :: w3 :: w4 :: w5 :: w6 :: more ->
       (priority (creative_ad p) = 0%N ->
        ComputePredictorScore E p
        = ret (d_mul (sum_before_priority w0 w1 w2 w3 w4 w5 p)
                     (ptr (creative_ad p))))
       /\ ((0 < priority (creative_ad p))%N ->
           Z.of_N (priority (creative_ad p)) <> 0
           /\ ComputePredictorScore E p
              = ret (d_mul
                       (d_add (sum_before_priority w0 w1 w2 w3 w4 w5 p)
                          (d_div w6
                             (d_of_int (Z.of_N (priority (creative_ad p))))))
                       (ptr (creative_ad p)))).
Proof.
  split; [apply ComputePredictorScore_no_zero_divisor|].
  intros w0 w1 w2 w3 w4 w5 w6 more Hw.
  rewrite (ComputePredictorScore_formula w0 w1 w2 w3 w4 w5 w6 more p Hw).
  unfold score_formula, priority_term. split.
  - intros Hzero. rewrite Hzero. reflexivity.
  - intros Hpos. split; [lia|].
    apply N.ltb_lt in Hpos. rewrite Hpos. reflexivity.
Qed.

(** C7: [ComputePredictorFeatures] sets the intent-child flag iff the
    intent segments meet the ad's segments, the intent-parent flag iff the
    parents of the interest (not intent) segments meet them, the
    interest-child flag iff the interest segments meet them, and the
    interest-parent flag iff the parents of the interest segments meet
    them. *)
Theorem ComputePredictorFeatures_flags (p : AdPredictorInfo double)
    (ad_events : AdEventList) (interest_segments intent_segments : SegmentList) :
  let p' := ComputePredictorFeatures E p ad_events interest_segments
                                     intent_segments in
  (does_match_intent_child_segments p' = true
   <-> exists s, s ∈ intent_segments /\ s ∈ segments p)
  /\ (does_match_intent_parent_segments p' = true
      <-> exists s, s ∈ GetParentSegments E interest_segments
                    /\ s ∈ segments p)
  /\ (does_match_interest_child_segments p' = true
      <-> exists s, s ∈ interest_segments /\ s ∈ segments p)
  /\ (does_match_interest_parent_segments p' = true
      <-> exists s, s ∈ GetParentSegments E interest_segments
                    /\ s ∈ segments p).
Proof.
  simpl. repeat split; try (apply intersects_iff); intros Hs;
    apply intersects_iff; exact Hs.
Qed.

End PredictorFacts.

(** The scorer run on a catalog entry that matches an intent segment, was
    seen 12 hours ago and has priority 2. *)
Lemma ComputePredictorScore_is_weighted_sum_witness :
  let E := Scenario.env [] true [] in
  let p := {| creative_ad := Scenario.mk_ad "a" "A" "foo-bar1" 2;
              segments := ["foo-bar1"];
              does_match_intent_child_segments := true;
              does_match_intent_parent_segments := true;
              does_match_interest_child_segments := false;
              does_match_interest_parent_segments := false;
              ad_last_seen_hours_ago := 12;
              advertiser_last_seen_hours_ago := 30;
              score := 0%Q |} in
  GetAdPredictorWeights E = [1; 1; 1; 1; 1; 1; 1]%Q
  /\ ComputePredictorScore E p
     = ret (((0 + 1) + (1 * inject_Z 12 / inject_Z 24)
             + (1 / inject_Z 2)) * 1)%Q.
Proof.
  intros E p. split; [reflexivity|].
  exact (proj1 (ComputePredictorScore_is_weighted_sum
                  E 1%Q 1%Q 1%Q 1%Q 1%Q 1%Q 1%Q [] p eq_refl)).
Defined.

(** The scorer run on an ad of priority 0 and on an ad of priority 2. *)
Lemma ComputePredictorScore_never_divides_by_zero_witness :
  let E := Scenario.env [] true [] in
  let mk prio :=
    {| creative_ad := Scenario.mk_ad "a" "A" "foo-bar1" prio;
       segments := ["foo-bar1"];
       does_match_intent_child_segments := true;
       does_match_intent_parent_segments := false;
       does_match_interest_child_segments := false;
       does_match_interest_parent_segments := false;
       ad_last_seen_hours_ago := 48;
       advertiser_last_seen_hours_ago := 48;
       score := 0%Q |} in
  ComputePredictorScore E (mk 0%N) = ret ((0 + 1) * 1)%Q
  /\ ComputePredictorScore E (mk 2%N)
     = ret ((0 + 1 + 1 / inject_Z 2) * 1)%Q.
Proof.
  intros E mk. split.
  - exact (proj1 (proj2 (ComputePredictorScore_never_divides_by_zero
                           E (mk 0%N))
                    1%Q 1%Q 1%Q 1%Q 1%Q 1%Q 1%Q [] eq_refl) eq_refl).
  - exact (proj2 (proj2 (proj2 (ComputePredictorScore_never_divides_by_zero
                                  E (mk 2%N))
                           1%Q 1%Q 1%Q 1%Q 1%Q 1%Q 1%Q [] eq_refl) eq_refl)).
Defined.

(** ** The unit tests of the cascade, run on the engine

    [eligible_ad_notifications_unittest.cc] exercises the same cascade on
    notification ads; the expected lists are the ones of the tests. *)

Example GetAdsForParentChildSegment :
  Scenario.answer [Scenario.tech; Scenario.software]
                  ["technology & computing-software"]
  = Some (true, [Scenario.software]).
Proof. reflexivity. Qed.

Example GetAdsForParentSegment :
  Scenario.answer [Scenario.tech] ["technology & computing-software"]
  = Some (true, [Scenario.tech]).
Proof. reflexivity. Qed.

Example GetAdsForUntargetedSegment :
  Scenario.answer [Scenario.untargeted] ["finance-banking"]
  = Some (true, [Scenario.untargeted]).
Proof. reflexivity. Qed.

Example GetAdsForNoSegments :
  Scenario.answer [Scenario.untargeted] []
  = Some (true, [Scenario.untargeted]).
Proof. reflexivity. Qed.

Example GetAdsForUnmatchedSegments :
  Scenario.answer [Scenario.tech] ["UNMATCHED"] = Some (false, []).
Proof. reflexivity. Qed.

(** ** Facts about the selection orchestrator *)

Section OrchestratorFacts.

Context {double : Type} `{DoubleOps double} (E : Env double).


Lemma is_empty_true {A} (l : list A) : is_empty l = true <-> l = [].
Proof. destruct l; simpl; split; congruence. Qed.

Lemma is_empty_false {A} (l : list A) : is_empty l = false <-> l <> [].
Proof. destruct l; simpl; split; congruence. Qed.

Lemma GetForUntargeted_run {R} this dimensions ad_events history
    (callback : bool -> CreativeAdList double -> Async R) log :
  inline_content_ads.GetForUntargeted E this dimensions ad_events history
    callback log
  = callback true
      (tier E this [inline_content_ads.kUntargeted] dimensions ad_events
            history)
      (log ++ [query [inline_content_ads.kUntargeted] dimensions]).
Proof.
  unfold inline_content_ads.GetForUntargeted,
    inline_content_ads.CreativeAds_table_GetForSegmentsAndDimensions, tier.
  destruct (db_GetForSegmentsAndDimensions E _ dimensions) as [[ok segs] ads].
  reflexivity.
Qed.

Lemma GetForParentSegments_run {R} this segments dimensions ad_events history
    (callback : bool -> CreativeAdList double -> Async R) log :
  inline_content_ads.GetForParentSegments E this segments dimensions
    ad_events history callback log
  = let parents := GetParentSegments E segments in
    if bool_decide (parents = segments) then callback false [] log
    else
      let t := tier E this parents dimensions ad_events history in
      if is_empty t then
        callback true
          (tier E this [inline_content_ads.kUntargeted] dimensions ad_events
                history)
          (log ++ [query parents dimensions;
                   query [inline_content_ads.kUntargeted] dimensions])
      else callback true t (log ++ [query parents dimensions]).
Proof.
  unfold inline_content_ads.GetForParentSegments. simpl.
  destruct (bool_decide (GetParentSegments E segments = segments));
    [reflexivity|].
  unfold inline_content_ads.CreativeAds_table_GetForSegmentsAndDimensions,
    tier.
  destruct (db_GetForSegmentsAndDimensions E (GetParentSegments E segments)
              dimensions) as [[ok segs] ads]. simpl.
  destruct (is_empty _); [|reflexivity].
  rewrite GetForUntargeted_run, <- app_assoc. reflexivity.
Qed.

Lemma GetForParentChildSegments_run {R} this segments dimensions ad_events
    history (callback : bool -> CreativeAdList double -> Async R) log :
  inline_content_ads.GetForParentChildSegments E this segments dimensions
    ad_events history callback log
  = let t := tier E this segments dimensions ad_events history in
    if is_empty t then
      inline_content_ads.GetForParentSegments E this
        (returned_segments E segments dimensions) dimensions ad_events history
        callback (log ++ [query segments dimensions])
    else callback true t (log ++ [query segments dimensions]).
Proof.
  unfold inline_content_ads.GetForParentChildSegments,
    inline_content_ads.CreativeAds_table_GetForSegmentsAndDimensions,
    tier, returned_segments.
  destruct (db_GetForSegmentsAndDimensions E segments dimensions)
    as [[ok segs] ads].
  simpl. destruct (is_empty _); reflexivity.
Qed.

(** The cascade from the parent-child tier on, when it is not cut short:
    the first non-empty tier answers, and only the tiers up to it are
    queried. *)
Lemma GetForParentChildSegments_answers {R} this segments dimensions ad_events
    history (callback : bool -> CreativeAdList double -> Async R) log :
  tier E this segments dimensions ad_events history <> []
  \/ GetParentSegments E (returned_segments E segments dimensions)
     <> returned_segments E segments dimensions ->
  inline_content_ads.GetForParentChildSegments E this segments dimensions
    ad_events history callback log
  = callback true
      (cascade_as_specified E this segments dimensions ad_events history)
      (log ++ cascade_calls E this segments dimensions ad_events history).
Proof.
  intros Hgo. rewrite GetForParentChildSegments_run. simpl.
  unfold cascade_as_specified, cascade_calls, first_nonempty. simpl.
  destruct (is_empty (tier E this segments dimensions ad_events history))
    eqn:Ht; simpl; [|reflexivity].
  destruct Hgo as [Hgo | Hgo]; [apply is_empty_true in Ht; contradiction|].
  rewrite GetForParentSegments_run. simpl.
  rewrite bool_decide_eq_false_2 by exact Hgo.
  destruct (is_empty
              (tier E this
                 (GetParentSegments E (returned_segments E segments dimensions))
                 dimensions ad_events history)) eqn:Ht2; simpl.
  - rewrite <- !app_assoc. simpl.
    destruct (tier E this [inline_content_ads.kUntargeted] dimensions
                   ad_events history); reflexivity.
  - rewrite <- !app_assoc. reflexivity.
Qed.

(** The cascade cut short by the guard of [GetForParentSegments]. *)
Lemma GetForParentChildSegments_refuses {R} this segments dimensions ad_events
    history (callback : bool -> CreativeAdList double -> Async R) log :
  tier E this segments dimensions ad_events history = [] ->
  GetParentSegments E (returned_segments E segments dimensions)
  = returned_segments E segments dimensions ->
  inline_content_ads.GetForParentChildSegments E this segments dimensions
    ad_events history callback log
  = callback false [] (log ++ [query segments dimensions]).
Proof.
  intros Ht Hp. rewrite GetForParentChildSegments_run. simpl.
  apply is_empty_true in Ht. rewrite Ht.
  rewrite GetForParentSegments_run. simpl.
  rewrite bool_decide_eq_true_2 by exact Hp. reflexivity.
Qed.

(** [GetForSegments] once the ad events have arrived. *)
Lemma GetForSegments_run {R} this segments dimensions ad_events
    (callback : bool -> CreativeAdList double -> Async R) log :
  db_AdEvents_GetAll E = (true, ad_events) ->
  let history :=
    client_GetBrowsingHistory E (GetBrowsingHistoryMaxCount E)
                              (GetBrowsingHistoryDaysAgo E) in
  let log' :=
    log ++ [AdEvents_GetAll;
            Client_GetBrowsingHistory (GetBrowsingHistoryMaxCount E)
                                      (GetBrowsingHistoryDaysAgo E)] in
  inline_content_ads.GetForSegments E this segments dimensions callback log
  = if is_empty segments then
      inline_content_ads.GetForUntargeted E this dimensions ad_events history
        callback log'
    else
      inline_content_ads.GetForParentChildSegments E this segments dimensions
        ad_events history callback log'.
Proof.
  intros Hev. unfold inline_content_ads.GetForSegments,
    inline_content_ads.AdEvents_table_GetAll,
    inline_content_ads.AdsClient_GetBrowsingHistory.
  rewrite Hev. simpl. rewrite <- !app_assoc.
  destruct (is_empty segments); reflexivity.
Qed.

Lemma GetForSegments_events_failed {R} this segments dimensions
    (callback : bool -> CreativeAdList double -> Async R) log :
  fst (db_AdEvents_GetAll E) = false ->
  inline_content_ads.GetForSegments E this segments dimensions callback log
  = callback false [] (log ++ [AdEvents_GetAll]).
Proof.
  intros Hev. unfold inline_content_ads.GetForSegments,
    inline_content_ads.AdEvents_table_GetAll.
  destruct (db_AdEvents_GetAll E) as [ok ev]. simpl in Hev. subst ok.
  reflexivity.
Qed.

End OrchestratorFacts.

(** ** The cascade of [GetForSegments] *)

Section CascadeClaims.

Context {double : Type} `{DoubleOps double} (E : Env double).


(** C1, amended: the callback of [GetForSegments] receives
    [allowed = false], with an empty list, exactly when the ad-event lookup
    fails, or when the segment list is not empty, the parent-child tier
    leaves no eligible ad and [GetParentSegments] maps the segments the
    store handed back to themselves.  In every other case it receives
    [allowed = true] with the ads of the first tier that is not empty (of
    the untargeted tier for an empty segment list), so with an empty list
    when no tier has an eligible ad. *)
Theorem GetForSegments_allowed_false_iff
    (this : inline_content_ads.EligibleAds) (segments : SegmentList)
    (dimensions : string) :
  let ad_events := snd (db_AdEvents_GetAll E) in
  let history := history_of E in
  let refused :=
    fst (db_AdEvents_GetAll E) = false
    \/ (segments <> []
        /\ tier E this segments dimensions ad_events history = []
        /\ GetParentSegments E (returned_segments E segments dimensions)
           = returned_segments E segments dimensions) in
  (refused ->
   exists calls, forall R (callback : bool -> CreativeAdList double -> Async R)
                        log,
     inline_content_ads.GetForSegments E this segments dimensions callback log
     = callback false [] (log ++ calls))
  /\ (~ refused ->
      exists calls,
        forall R (callback : bool -> CreativeAdList double -> Async R) log,
          inline_content_ads.GetForSegments E this segments dimensions
            callback log
          = callback true
              (if is_empty segments then
                 tier E this [inline_content_ads.kUntargeted] dimensions
                      ad_events history
               else
                 cascade_as_specified E this segments dimensions ad_events
                                      history)
              (log ++ calls)).
Proof.
  intros ad_events history refused. subst refused ad_events history.
  destruct (db_AdEvents_GetAll E) as [ok ev] eqn:Hev. simpl.
  destruct ok.
  - (* the ad events arrived *)
    split.
    + intros [Hfail | (Hne & Ht & Hp)]; [discriminate|].
      eexists. intros R callback log.
      rewrite (GetForSegments_run E this segments dimensions ev callback log
                 Hev).
      apply is_empty_false in Hne. rewrite Hne.
      rewrite (GetForParentChildSegments_refuses E this segments dimensions
                 ev _ callback _ Ht Hp).
      rewrite <- app_assoc. reflexivity.
    + intros Hnot.
      destruct (is_empty segments) eqn:Hsegs.
      * eexists. intros R callback log.
        rewrite (GetForSegments_run E this segments dimensions ev callback
                   log Hev).
        rewrite Hsegs, GetForUntargeted_run, <- app_assoc. reflexivity.
      * assert (Hgo : tier E this segments dimensions ev (history_of E) <> []
                      \/ GetParentSegments E
                           (returned_segments E segments dimensions)
                         <> returned_segments E segments dimensions).
        { destruct (is_empty
                      (tier E this segments dimensions ev (history_of E)))
            eqn:Ht.
          - right. intros Hp. apply Hnot. right.
            apply is_empty_false in Hsegs. apply is_empty_true in Ht. auto.
          - left. apply is_empty_false. exact Ht. }
        eexists. intros R callback log.
        rewrite (GetForSegments_run E this segments dimensions ev callback
                   log Hev).
        rewrite Hsegs.
        rewrite (GetForParentChildSegments_answers E this segments dimensions
                   ev _ callback _ Hgo).
        rewrite <- app_assoc. reflexivity.
  - (* the ad-event store failed *)
    split.
    + intros _. exists [AdEvents_GetAll]. intros R callback log.
      apply GetForSegments_events_failed. rewrite Hev. reflexivity.
    + intros Hnot. exfalso. apply Hnot. left. reflexivity.
Qed.

(** C2, amended: once the ad events have arrived, [GetForSegments] with an
    empty segment list queries the untargeted tier directly; with a
    non-empty list it tries the parent-child tier, then the parent tier
    (the parents of the segments the store handed back), then the
    untargeted tier, and answers with the first tier that is not empty
    after [FilterIneligibleAds] -- unless the parent-child tier is empty
    and [GetParentSegments] changes nothing, in which case no further tier
    is queried and the callback receives [allowed = false] and no ads. *)
Theorem GetForSegments_cascade
    (this : inline_content_ads.EligibleAds) (segments : SegmentList)
    (dimensions : string) (ad_events : AdEventList) :
  db_AdEvents_GetAll E = (true, ad_events) ->
  let history := history_of E in
  let pre := [AdEvents_GetAll; history_call E] in
  let handed_back := returned_segments E segments dimensions in
  (segments = [] ->
   forall R (callback : bool -> CreativeAdList double -> Async R) log,
     inline_content_ads.GetForSegments E this segments dimensions callback log
     = callback true
         (tier E this [inline_content_ads.kUntargeted] dimensions ad_events
               history)
         (log ++ pre ++ [query [inline_content_ads.kUntargeted] dimensions]))
  /\ (segments <> [] ->
      tier E this segments dimensions ad_events history <> []
      \/ GetParentSegments E handed_back <> handed_back ->
      forall R (callback : bool -> CreativeAdList double -> Async R) log,
        inline_content_ads.GetForSegments E this segments dimensions
          callback log
        = callback true
            (cascade_as_specified E this segments dimensions ad_events
                                  history)
            (log ++ pre
                 ++ cascade_calls E this segments dimensions ad_events
                                  history))
  /\ (segments <> [] ->
      tier E this segments dimensions ad_events history = [] ->
      GetParentSegments E handed_back = handed_back ->
      forall R (callback : bool -> CreativeAdList double -> Async R) log,
        inline_content_ads.GetForSegments E this segments dimensions
          callback log
        = callback false [] (log ++ pre ++ [query segments dimensions])).
Proof.
  intros Hev history pre handed_back. subst history pre handed_back.
  repeat split.
  - intros Hsegs R callback log.
    rewrite (GetForSegments_run E this segments dimensions ad_events callback
               log Hev).
    apply is_empty_true in Hsegs. rewrite Hsegs, GetForUntargeted_run.
    rewrite <- !app_assoc. reflexivity.
  - intros Hsegs Hgo R callback log.
    rewrite (GetForSegments_run E this segments dimensions ad_events callback
               log Hev).
    apply is_empty_false in Hsegs. rewrite Hsegs.
    rewrite (GetForParentChildSegments_answers E this segments dimensions
               ad_events _ callback _ Hgo).
    rewrite <- !app_assoc. reflexivity.
  - intros Hsegs Ht Hp R callback log.
    rewrite (GetForSegments_run E this segments dimensions ad_events callback
               log Hev).
    apply is_empty_false in Hsegs. rewrite Hsegs.
    rewrite (GetForParentChildSegments_refuses E this segments dimensions
               ad_events _ callback _ Ht Hp).
    rewrite <- !app_assoc. reflexivity.
Qed.

End CascadeClaims.

(** The unit test [GetAdsForUnmatchedSegments] on the engine: one ad on
    ["technology & computing"], a request for ["UNMATCHED"].  Both store
    lookups succeed, no tier has an eligible ad, and the callback is still
    told [allowed = false]. *)
Lemma GetForSegments_refuses_without_store_failure :
  let E := Scenario.env
             [Scenario.mk_ad "1" "A" "technology & computing" 1] true [] in
  let this := Scenario.engine inline_content_ads.default_CreativeAdInfo in
  fst (db_AdEvents_GetAll E) = true
  /\ fst (fst (db_GetForSegmentsAndDimensions E ["UNMATCHED"] "")) = true
  /\ tier E this ["UNMATCHED"] "" [] [] = []
  /\ tier E this (GetParentSegments E ["UNMATCHED"]) "" [] [] = []
  /\ tier E this [inline_content_ads.kUntargeted] "" [] [] = []
  /\ inline_content_ads.GetForSegments E this ["UNMATCHED"] ""
       Scenario.report []
     = ret (false, [],
            [AdEvents_GetAll; Client_GetBrowsingHistory 5000 180;
             CreativeAds_GetForSegmentsAndDimensions ["UNMATCHED"] ""]).
Proof. repeat split; vm_compute; reflexivity. Qed.

(** The amended C1 on the same store: refused for ["UNMATCHED"]; allowed,
    with the ad of the parent tier, for
    ["technology & computing-software"]. *)
Lemma GetForSegments_allowed_false_iff_witness :
  let ad := Scenario.mk_ad "1" "A" "technology & computing" 1 in
  let E := Scenario.env [ad] true [] in
  let this := Scenario.engine inline_content_ads.default_CreativeAdInfo in
  (exists calls,
     forall R (callback : bool -> CreativeAdList Q -> Async R) log,
       inline_content_ads.GetForSegments E this ["UNMATCHED"] "" callback log
       = callback false [] (log ++ calls))
  /\ (exists calls,
        forall R (callback : bool -> CreativeAdList Q -> Async R) log,
          inline_content_ads.GetForSegments E this
            ["technology & computing-software"] "" callback log
          = callback true [ad] (log ++ calls)).
Proof.
  intros ad E this. split.
  - apply (proj1 (GetForSegments_allowed_false_iff E this ["UNMATCHED"] "")).
    right. repeat split; [discriminate | vm_compute; reflexivity ..].
  - apply (proj2 (GetForSegments_allowed_false_iff E this
                    ["technology & computing-software"] "")).
    intros [Hfail | (_ & _ & Hp)]; vm_compute in *; discriminate.
Defined.

(** A store holding one untargeted ad and a request for ["sports"]: the
    specified cascade would answer with the untargeted ad, the engine stops
    after the parent-child tier and answers [allowed = false]. *)
Lemma GetForSegments_skips_untargeted_tier :
  let ad := Scenario.mk_ad "1" "A" "untargeted" 1 in
  let E := Scenario.env [ad] true [] in
  let this := Scenario.engine inline_content_ads.default_CreativeAdInfo in
  db_AdEvents_GetAll E = (true, [])
  /\ cascade_as_specified E this ["sports"] "" [] [] = [ad]
  /\ inline_content_ads.GetForSegments E this ["sports"] ""
       Scenario.report []
     = ret (false, [],
            [AdEvents_GetAll; Client_GetBrowsingHistory 5000 180;
             CreativeAds_GetForSegmentsAndDimensions ["sports"] ""]).
Proof. repeat split; vm_compute; reflexivity. Qed.

(** The amended C2 on the unit test [GetAdsForParentSegment]: the
    parent-child tier is empty, the parent tier answers. *)
Lemma GetForSegments_cascade_witness :
  let ad := Scenario.mk_ad "1" "A" "technology & computing" 1 in
  let E := Scenario.env [ad] true [] in
  let this := Scenario.engine inline_content_ads.default_CreativeAdInfo in
  db_AdEvents_GetAll E = (true, [])
  /\ inline_content_ads.GetForSegments E this
       ["technology & computing-software"] "" Scenario.report []
     = ret (true, [ad],
            [AdEvents_GetAll; Client_GetBrowsingHistory 5000 180;
             CreativeAds_GetForSegmentsAndDimensions
               ["technology & computing-software"] "";
             CreativeAds_GetForSegmentsAndDimensions
               ["technology & computing"] ""]).
Proof.
  intros ad E this. split; [reflexivity|].
  refine (proj1 (proj2 (GetForSegments_cascade E this
                          ["technology & computing-software"] "" []
                          eq_refl))
            _ _ _ Scenario.report []).
  - discriminate.
  - right. vm_compute. discriminate.
Defined.

(** ** The eligibility pipeline and the last served ad *)

Section PipelineFacts.

Context {double : Type} `{DoubleOps double} (E : Env double).

Lemma filter_sublist {A} (f : A -> bool) (l : list A) :
  sublist (List.filter f l) l.
Proof.
  induction l as [|x l IH]; simpl.
  - constructor.
  - destruct (f x); constructor; exact IH.
Qed.

Lemma filter_all {A} (f : A -> bool) (l : list A) :
  (forall x, x ∈ l -> f x = true) -> List.filter f l = l.
Proof.
  induction l as [|x l IH]; intros Hall; simpl; [reflexivity|].
  rewrite (Hall x) by left. f_equal. apply IH.
  intros y Hy. apply Hall. right. exact Hy.
Qed.

(** An ad passes [ApplyFrequencyCapping] exactly when no exclusion rule
    fires and its instance id differs from the one it is compared with. *)
Lemma ApplyFrequencyCapping_elem this (l : CreativeAdList double)
    (last : CreativeAdInfo double) ad_events history c :
  c ∈ inline_content_ads.ApplyFrequencyCapping E this l last ad_events history
  <-> c ∈ l
      /\ ShouldExcludeAd E ad_events history c = false
      /\ creative_instance_id c <> creative_instance_id last.
Proof.
  unfold inline_content_ads.ApplyFrequencyCapping.
  rewrite !list_elem_of_In, filter_In, negb_true_iff, orb_false_iff.
  rewrite String.eqb_neq. reflexivity.
Qed.

Lemma ApplyFrequencyCapping_keeps_all this (l : CreativeAdList double)
    (last : CreativeAdInfo double) ad_events history :
  (forall c, c ∈ l ->
     ShouldExcludeAd E ad_events history c = false
     /\ creative_instance_id c <> creative_instance_id last) ->
  inline_content_ads.ApplyFrequencyCapping E this l last ad_events history = l.
Proof.
  intros Hall. unfold inline_content_ads.ApplyFrequencyCapping.
  apply filter_all. intros c Hc. destruct (Hall c Hc) as [Hrule Hid].
  rewrite Hrule. simpl. apply negb_true_iff, String.eqb_neq. exact Hid.
Qed.

Lemma ShouldCapLastServedAd_false_iff (ads : CreativeAdList double) :
  inline_content_ads.ShouldCapLastServedAd ads = false <-> length ads = 1%nat.
Proof.
  unfold inline_content_ads.ShouldCapLastServedAd.
  rewrite negb_false_iff. apply Nat.eqb_eq.
Qed.

(** [FilterIneligibleAds] on a non-empty list, stage by stage. *)
Lemma FilterIneligibleAds_stages this (ads : CreativeAdList double)
    ad_events history :
  ads <> [] ->
  inline_content_ads.FilterIneligibleAds E this ads ad_events history
  = PrioritizeAds E
      (PaceAds E
         (inline_content_ads.ApplyFrequencyCapping E this (prior_stages E ads)
            (if inline_content_ads.ShouldCapLastServedAd ads
             then inline_content_ads.last_served_creative_ad_ this
             else inline_content_ads.default_CreativeAdInfo)
            ad_events history)).
Proof.
  intros Hne. unfold inline_content_ads.FilterIneligibleAds.
  apply is_empty_false in Hne. rewrite Hne. reflexivity.
Qed.

Lemma FilterIneligibleAds_sublist this (ads : CreativeAdList double)
    ad_events history :
  stages_only_remove E ->
  sublist (inline_content_ads.FilterIneligibleAds E this ads ad_events history)
          ads.
Proof.
  intros (Hs1 & Hs2 & Hpace & Hprio).
  destruct ads as [|a ads]; [constructor|].
  rewrite FilterIneligibleAds_stages by discriminate.
  etransitivity; [apply Hprio|].
  etransitivity; [apply Hpace|].
  etransitivity; [apply filter_sublist|].
  unfold prior_stages.
  etransitivity; [apply Hs2|]. apply Hs1.
Qed.

End PipelineFacts.

Section PipelineClaims.

Context {double : Type} `{DoubleOps double} (E : Env double).


(** C9, amended: applying [FilterIneligibleAds] to its own output, with
    the same ad events, browsing history and last served ad, returns that
    output unchanged, provided no ad of the output has an empty
    [creative_instance_id] and the stages outside this file (seen
    advertisers, seen ads, pacing, priority) only remove ads and leave the
    already filtered list as it is. *)
Theorem FilterIneligibleAds_idempotent
    (this : inline_content_ads.EligibleAds) (ads : CreativeAdList double)
    (ad_events : AdEventList) (history : BrowsingHistoryList) :
  let out :=
    inline_content_ads.FilterIneligibleAds E this ads ad_events history in
  stages_only_remove E ->
  stages_keep E out ->
  (forall c, c ∈ out -> creative_instance_id c <> "") ->
  inline_content_ads.FilterIneligibleAds E this out ad_events history = out.
Proof.
  intros out Hremove Hkeep Hids.
  destruct (is_empty out) eqn:Hout.
  { apply is_empty_true in Hout. rewrite Hout. reflexivity. }
  apply is_empty_false in Hout.
  assert (Hads : ads <> []).
  { intros ->. apply Hout. reflexivity. }
  pose proof (FilterIneligibleAds_sublist E this ads ad_events history Hremove)
    as Hsub.
  fold out in Hsub.
  rewrite (FilterIneligibleAds_stages E this out ad_events history Hout).
  destruct Hkeep as (Hk1 & Hk2 & Hkpace & Hkprio).
  unfold prior_stages. rewrite Hk1, Hk2.
  rewrite ApplyFrequencyCapping_keeps_all; [rewrite Hkpace; exact Hkprio|].
  intros c Hc.
  assert (Hc' : c ∈ out) by exact Hc.
  unfold out in Hc.
  rewrite (FilterIneligibleAds_stages E this ads ad_events history Hads) in Hc.
  destruct Hremove as (_ & _ & Hpace & Hprio).
  apply (fun Hin => elem_of_sublist _ _ _ Hin (Hprio _)) in Hc.
  apply (fun Hin => elem_of_sublist _ _ _ Hin (Hpace _)) in Hc.
  apply ApplyFrequencyCapping_elem in Hc as (_ & Hrule & Hid).
  split; [exact Hrule|].
  destruct (inline_content_ads.ShouldCapLastServedAd out) eqn:Hcap_out.
  - destruct (inline_content_ads.ShouldCapLastServedAd ads) eqn:Hcap_ads;
      [exact Hid|].
    exfalso.
    apply ShouldCapLastServedAd_false_iff in Hcap_ads.
    apply sublist_length in Hsub. rewrite Hcap_ads in Hsub.
    assert (Hlen : length out = 1%nat).
    { destruct out; [contradiction | simpl in *; lia]. }
    apply ShouldCapLastServedAd_false_iff in Hlen. congruence.
  - simpl. apply Hids. exact Hc'.
Qed.

(** C4, amended: for every input list of exactly one ad,
    [ShouldCapLastServedAd] is false, frequency capping compares against a
    default-constructed [CreativeAdInfo] instead of the last served ad, and
    the result of [FilterIneligibleAds] is the same whichever ad was served
    last.  The flag is read off the input list, before any stage has run. *)
Theorem ShouldCapLastServedAd_single_input
    (this this' : inline_content_ads.EligibleAds)
    (ads : CreativeAdList double) (ad_events : AdEventList)
    (history : BrowsingHistoryList) :
  length ads = 1%nat ->
  inline_content_ads.ShouldCapLastServedAd ads = false
  /\ inline_content_ads.FilterIneligibleAds E this ads ad_events history
     = PrioritizeAds E
         (PaceAds E
            (inline_content_ads.ApplyFrequencyCapping E this
               (prior_stages E ads) default_ad ad_events history))
  /\ inline_content_ads.FilterIneligibleAds E this ads ad_events history
     = inline_content_ads.FilterIneligibleAds E this' ads ad_events history.
Proof.
  intros Hlen.
  assert (Hcap : inline_content_ads.ShouldCapLastServedAd ads = false)
    by (apply ShouldCapLastServedAd_false_iff; exact Hlen).
  assert (Hne : ads <> []) by (intros ->; discriminate).
  rewrite !FilterIneligibleAds_stages by exact Hne.
  rewrite Hcap. repeat split.
Qed.

(** C10: for a sole candidate [a], [ShouldCapLastServedAd] is false and both
    [FilterIneligibleAds] and [GetEligibleAds] hand a default-constructed
    [CreativeAdInfo] to [ApplyFrequencyCapping]; every candidate's instance
    id is still compared with its empty id, so a candidate with a non-empty
    id is excluded by the rules alone and a candidate with an empty id is
    always excluded. *)
Theorem last_served_comparison_against_default
    (this : inline_content_ads.EligibleAds) (a : CreativeAdInfo double)
    (ad_events : AdEventList) (history : BrowsingHistoryList)
    (interest_segments intent_segments : SegmentList) (dimensions : string) :
  inline_content_ads.ShouldCapLastServedAd [a] = false
  /\ inline_content_ads.FilterIneligibleAds E this [a] ad_events history
     = PrioritizeAds E
         (PaceAds E
            (inline_content_ads.ApplyFrequencyCapping E this
               (prior_stages E [a]) default_ad ad_events history))
  /\ (db_GetForDimensions E dimensions = (true, [a]) ->
      forall R (callback : bool -> option (CreativeAdInfo double) -> Async R)
             log,
        inline_content_ads.GetEligibleAds E this interest_segments
          intent_segments ad_events history dimensions callback log
        = let eligible_ads :=
            inline_content_ads.ApplyFrequencyCapping E this [a] default_ad
              ad_events history in
          let log' := log ++ [CreativeAds_GetForDimensions dimensions] in
          if is_empty eligible_ads then callback true None log'
          else inline_content_ads.ChooseAd E this eligible_ads ad_events
                 interest_segments intent_segments callback log')
  /\ (forall l c,
        c ∈ inline_content_ads.ApplyFrequencyCapping E this l default_ad
              ad_events history
        <-> c ∈ l /\ ShouldExcludeAd E ad_events history c = false
            /\ creative_instance_id c <> "")
  /\ inline_content_ads.ApplyFrequencyCapping E this [a] default_ad ad_events
       history
     = if ShouldExcludeAd E ad_events history a then []
       else if String.eqb (creative_instance_id a) "" then []
       else [a].
Proof.
  split; [reflexivity|]. split; [reflexivity|]. split; [|split].
  - intros Hdb R callback log.
    unfold inline_content_ads.GetEligibleAds,
      inline_content_ads.CreativeAds_table_GetForDimensions.
    rewrite Hdb. simpl.
    destruct (is_empty _); reflexivity.
  - intros l c. apply ApplyFrequencyCapping_elem.
  - unfold inline_content_ads.ApplyFrequencyCapping. simpl.
    destruct (ShouldExcludeAd E ad_events history a); simpl; [reflexivity|].
    destruct (String.eqb (creative_instance_id a) ""); reflexivity.
Qed.

End PipelineClaims.

(** The stand-in stages of [Scenario.env] only remove ads. *)
Lemma scenario_stages_only_remove catalog events_ok seen :
  stages_only_remove (Scenario.env catalog events_ok seen).
Proof.
  unfold stages_only_remove. simpl. repeat split.
  - intros l t. unfold Scenario.FilterSeenAdvertisers_spec.
    destruct (is_empty _); [reflexivity | apply filter_sublist].
  - intros l t. unfold Scenario.FilterSeenAds_spec.
    destruct (is_empty _); [reflexivity | apply filter_sublist].
  - intros l. reflexivity.
  - intros [|a l]; [constructor | apply filter_sublist].
Qed.

(** Two ads, the last served one being ["x"], the other one carrying an
    empty instance id: the first pass keeps the ad with the empty id, the
    second pass, now on a one-element list, removes it. *)
Lemma FilterIneligibleAds_second_pass_removes :
  let a := Scenario.mk_ad "" "A" "untargeted" 1 in
  let b := Scenario.mk_ad "x" "B" "untargeted" 1 in
  let E := Scenario.env [a; b] true [] in
  let this := Scenario.engine b in
  inline_content_ads.FilterIneligibleAds E this [a; b] [] [] = [a]
  /\ inline_content_ads.FilterIneligibleAds E this [a] [] [] = [].
Proof. split; vm_compute; reflexivity. Qed.

(** The amended C9 on three ads: the advertiser of the third was already
    served, the second is the last served ad, the first survives and
    survives again. *)
Lemma FilterIneligibleAds_idempotent_witness :
  let a := Scenario.mk_ad "a" "A" "untargeted" 1 in
  let b := Scenario.mk_ad "b" "B" "untargeted" 1 in
  let c := Scenario.mk_ad "c" "C" "untargeted" 1 in
  let E := Scenario.env [a; b; c] true ["C"] in
  let this := Scenario.engine b in
  inline_content_ads.FilterIneligibleAds E this [a; b; c] [] [] = [a]
  /\ inline_content_ads.FilterIneligibleAds E this [a] [] [] = [a].
Proof.
  intros a b c E this. split; [vm_compute; reflexivity|].
  refine (FilterIneligibleAds_idempotent E this [a; b; c] [] [] _ _ _).
  - apply scenario_stages_only_remove.
  - repeat split; vm_compute; reflexivity.
  - intros x Hx. vm_compute in Hx.
    apply list_elem_of_singleton in Hx. subst x. discriminate.
Defined.

(** Two ads go in, the advertiser of the second was already served, so one
    ad survives the stages before frequency capping.  The flag is still
    true, and that sole survivor is dropped for being the last served ad;
    compared with a default [CreativeAdInfo] it would have stayed.  On the
    empty list the flag is true as well. *)
Lemma ShouldCapLastServedAd_reads_input_list :
  let a := Scenario.mk_ad "a" "A" "untargeted" 1 in
  let b := Scenario.mk_ad "b" "B" "untargeted" 1 in
  let E := Scenario.env [a; b] true ["B"] in
  let this := Scenario.engine a in
  prior_stages E [a; b] = [a]
  /\ inline_content_ads.ShouldCapLastServedAd [a; b] = true
  /\ inline_content_ads.FilterIneligibleAds E this [a; b] [] [] = []
  /\ inline_content_ads.ApplyFrequencyCapping E this (prior_stages E [a; b])
       inline_content_ads.default_CreativeAdInfo [] []
     = [a]
  /\ prior_stages E [] = []
  /\ inline_content_ads.ShouldCapLastServedAd (@nil (CreativeAdInfo Q)) = true.
Proof. repeat split; vm_compute; reflexivity. Qed.

(** The amended C4 on a one-element list whose ad is the last served
    one. *)
Lemma ShouldCapLastServedAd_single_input_witness :
  let a := Scenario.mk_ad "a" "A" "untargeted" 1 in
  let E := Scenario.env [a] true [] in
  length [a] = 1%nat
  /\ inline_content_ads.ShouldCapLastServedAd [a] = false
  /\ inline_content_ads.FilterIneligibleAds E (Scenario.engine a) [a] [] []
     = [a]
  /\ inline_content_ads.FilterIneligibleAds E (Scenario.engine a) [a] [] []
     = inline_content_ads.FilterIneligibleAds E
         (Scenario.engine inline_content_ads.default_CreativeAdInfo) [a] [] [].
Proof.
  intros a E.
  pose proof (ShouldCapLastServedAd_single_input E (Scenario.engine a)
                (Scenario.engine inline_content_ads.default_CreativeAdInfo)
                [a] [] [] eq_refl) as (Hcap & Hstages & Hsame).
  split; [reflexivity|]. split; [exact Hcap|]. split; [|exact Hsame].
  rewrite Hstages. vm_compute. reflexivity.
Defined.

(** ** Selection by predictor scores *)

Section PredictorSelection.

Context {double : Type} `{DoubleOps double} (E : Env double).

Lemma ComputePredictorScore_total (p : AdPredictorInfo double) :
  (7 <= length (GetAdPredictorWeights E))%nat ->
  exists s, ComputePredictorScore E p = ret s.
Proof.
  intros Hlen.
  destruct (GetAdPredictorWeights E)
    as [|w0 [|w1 [|w2 [|w3 [|w4 [|w5 [|w6 more]]]]]]] eqn:Hw;
    simpl in Hlen; try lia.
  eexists.
  apply (ComputePredictorScore_formula E w0 w1 w2 w3 w4 w5 w6 more p Hw).
Qed.

Lemma ComputePredictorFeaturesAndScores_total
    (ads : CreativeAdPredictorMap double) (ad_events : AdEventList)
    (interest_segments intent_segments : SegmentList) :
  (7 <= length (GetAdPredictorWeights E))%nat ->
  exists scored,
    ComputePredictorFeaturesAndScores E ads ad_events interest_segments
                                      intent_segments
    = ret scored.
Proof.
  intros Hlen. unfold ComputePredictorFeaturesAndScores.
  generalize (@nil (string * AdPredictorInfo double)).
  induction ads as [|[k p] ads IH]; intros acc; simpl.
  - exists acc. reflexivity.
  - destruct (ComputePredictorScore_total
                (ComputePredictorFeatures E p ad_events interest_segments
                                          intent_segments) Hlen) as [s Hs].
    rewrite Hs. simpl. apply IH.
Qed.

(** [GetFromAdPredictorScores] once the ad events and the catalog have
    arrived. *)
Lemma GetFromAdPredictorScores_run {R} this interest_segments intent_segments
    dimensions ad_events ads
    (callback : bool -> option (CreativeAdInfo double) -> Async R) log :
  db_AdEvents_GetAll E = (true, ad_events) ->
  db_GetForDimensions E dimensions = (true, ads) ->
  let history :=
    client_GetBrowsingHistory E (GetBrowsingHistoryMaxCount E)
                              (GetBrowsingHistoryDaysAgo E) in
  let log' :=
    log ++ [AdEvents_GetAll;
            Client_GetBrowsingHistory (GetBrowsingHistoryMaxCount E)
                                      (GetBrowsingHistoryDaysAgo E);
            CreativeAds_GetForDimensions dimensions] in
  let eligible_ads :=
    inline_content_ads.ApplyFrequencyCapping E this ads
      (if inline_content_ads.ShouldCapLastServedAd ads
       then inline_content_ads.last_served_creative_ad_ this
       else inline_content_ads.default_CreativeAdInfo)
      ad_events history in
  inline_content_ads.GetFromAdPredictorScores E this interest_segments
    intent_segments dimensions callback log
  = if is_empty eligible_ads then callback true None log'
    else inline_content_ads.ChooseAd E this eligible_ads ad_events
           interest_segments intent_segments callback log'.
Proof.
  intros Hev Hdb. simpl.
  unfold inline_content_ads.GetFromAdPredictorScores,
    inline_content_ads.AdEvents_table_GetAll,
    inline_content_ads.AdsClient_GetBrowsingHistory,
    inline_content_ads.GetEligibleAds,
    inline_content_ads.CreativeAds_table_GetForDimensions.
  rewrite Hev. simpl. rewrite Hdb. simpl. rewrite <- !app_assoc. simpl.
  destruct ads as [|a ads]; [reflexivity|]. simpl.
  destruct (is_empty _); reflexivity.
Qed.

(** C8, amended: [GetFromAdPredictorScores] fetches the catalog for the
    dimensions once, with no segment cascade, applies the frequency-capping
    stage alone (exclusion rules and the last-served comparison; no
    seen-advertiser or seen-ad dedup, no pacing, no priority sort), groups
    the survivors by creative instance id, computes features and scores,
    and hands the callback [allowed = true] with the outcome of one
    [SampleFromAds] draw; when frequency capping leaves nothing the
    callback receives [allowed = true] and no ad. *)
Theorem GetFromAdPredictorScores_caps_frequency_only
    (this : inline_content_ads.EligibleAds)
    (interest_segments intent_segments : SegmentList) (dimensions : string)
    (ad_events : AdEventList) (ads : CreativeAdList double) :
  db_AdEvents_GetAll E = (true, ad_events) ->
  db_GetForDimensions E dimensions = (true, ads) ->
  let history :=
    client_GetBrowsingHistory E (GetBrowsingHistoryMaxCount E)
                              (GetBrowsingHistoryDaysAgo E) in
  let calls :=
    [AdEvents_GetAll;
     Client_GetBrowsingHistory (GetBrowsingHistoryMaxCount E)
                               (GetBrowsingHistoryDaysAgo E);
     CreativeAds_GetForDimensions dimensions] in
  let eligible_ads :=
    inline_content_ads.ApplyFrequencyCapping E this ads
      (if inline_content_ads.ShouldCapLastServedAd ads
       then inline_content_ads.last_served_creative_ad_ this
       else inline_content_ads.default_CreativeAdInfo)
      ad_events history in
  (eligible_ads = [] ->
   forall R (callback : bool -> option (CreativeAdInfo double) -> Async R) log,
     inline_content_ads.GetFromAdPredictorScores E this interest_segments
       intent_segments dimensions callback log
     = callback true None (log ++ calls))
  /\ (eligible_ads <> [] ->
      (7 <= length (GetAdPredictorWeights E))%nat ->
      exists scored,
        ComputePredictorFeaturesAndScores E
          (GroupEligibleAdsByCreativeInstanceId E eligible_ads) ad_events
          interest_segments intent_segments
        = ret scored
        /\ forall R
             (callback : bool -> option (CreativeAdInfo double) -> Async R)
             log,
             inline_content_ads.GetFromAdPredictorScores E this
               interest_segments intent_segments dimensions callback log
             = callback true (SampleFromAds E scored) (log ++ calls)).
Proof.
  intros Hev Hdb history calls eligible_ads. split.
  - intros Hnone R callback log.
    rewrite (GetFromAdPredictorScores_run this interest_segments
               intent_segments dimensions ad_events ads callback log Hev Hdb).
    fold history. fold eligible_ads. rewrite Hnone. reflexivity.
  - intros Hsome Hlen.
    destruct (ComputePredictorFeaturesAndScores_total
                (GroupEligibleAdsByCreativeInstanceId E eligible_ads)
                ad_events interest_segments intent_segments Hlen)
      as [scored Hscored].
    exists scored. split; [exact Hscored|].
    intros R callback log.
    rewrite (GetFromAdPredictorScores_run this interest_segments
               intent_segments dimensions ad_events ads callback log Hev Hdb).
    fold history. fold eligible_ads.
    apply is_empty_false in Hsome. rewrite Hsome.
    unfold inline_content_ads.ChooseAd. rewrite Hscored. reflexivity.
Qed.

End PredictorSelection.

(** The unit test [GetForFeatures] with two priorities: ads on ["foo-bar1"]
    (priority 2) and ["foo-bar3"] (priority 1).  The engine scores both and
    the draw that lands on the first candidate picks the priority-2 ad; with
    the whole eligibility pipeline applied first, as specified, the priority
    sort would have left the priority-1 ad alone. *)
Lemma GetFromAdPredictorScores_skips_priority_sort :
  let a := Scenario.mk_ad "a" "A" "foo-bar1" 2 in
  let b := Scenario.mk_ad "b" "B" "foo-bar3" 1 in
  let E := Scenario.env [a; b] true [] in
  let this := Scenario.engine inline_content_ads.default_CreativeAdInfo in
  let calls := [AdEvents_GetAll; Client_GetBrowsingHistory 5000 180;
                CreativeAds_GetForDimensions ""] in
  inline_content_ads.FilterIneligibleAds E this [a; b] [] [] = [b]
  /\ inline_content_ads.GetFromAdPredictorScores E this ["foo-bar3"]
       ["foo-bar1"; "foo-bar2"] "" Scenario.report []
     = ret (true, Some a, calls)
  /\ GetFromAdPredictorScores_as_specified E this ["foo-bar3"]
       ["foo-bar1"; "foo-bar2"] "" Scenario.report []
     = ret (true, Some b, calls).
Proof. repeat split; vm_compute; reflexivity. Qed.

(** The amended C8 on the same catalog. *)
Lemma GetFromAdPredictorScores_caps_frequency_only_witness :
  let a := Scenario.mk_ad "a" "A" "foo-bar1" 2 in
  let b := Scenario.mk_ad "b" "B" "foo-bar3" 1 in
  let E := Scenario.env [a; b] true [] in
  let this := Scenario.engine inline_content_ads.default_CreativeAdInfo in
  db_AdEvents_GetAll E = (true, [])
  /\ db_GetForDimensions E "" = (true, [a; b])
  /\ (7 <= length (GetAdPredictorWeights E))%nat
  /\ exists scored,
       ComputePredictorFeaturesAndScores E
         (GroupEligibleAdsByCreativeInstanceId E [a; b]) []
         ["foo-bar3"] ["foo-bar1"; "foo-bar2"]
       = ret scored
       /\ forall R (callback : bool -> option (CreativeAdInfo Q) -> Async R)
                 log,
            inline_content_ads.GetFromAdPredictorScores E this ["foo-bar3"]
              ["foo-bar1"; "foo-bar2"] "" callback log
            = callback true (SampleFromAds E scored)
                (log ++ [AdEvents_GetAll; Client_GetBrowsingHistory 5000 180;
                         CreativeAds_GetForDimensions ""]).
Proof.
  intros a b E this.
  split; [reflexivity|]. split; [reflexivity|].
  split; [vm_compute; lia|].
  refine (proj2 (GetFromAdPredictorScores_caps_frequency_only E this
                   ["foo-bar3"] ["foo-bar1"; "foo-bar2"] "" [] [a; b]
                   eq_refl eq_refl) _ _).
  - vm_compute. discriminate.
  - vm_compute. lia.
Defined.

(** ** More on the segment resolver *)

Section SegmentResolverMore.

Context {double : Type} (E : Env double).

Lemma unfiltered_elem (segments : SegmentList) (s : string) :
  s ∈ unfiltered E segments
  <-> s ∈ segments /\ ShouldFilterSegment E s = false.
Proof.
  rewrite !list_elem_of_In, filter_In, negb_true_iff. reflexivity.
Qed.


Lemma FilterSegments_loop_uncapped (segments : SegmentList) :
  forall (max_count count : Z) (top : SegmentList),
    max_count <= count ->
    ad_targeting.FilterSegments_loop E segments max_count count top
    = top ++ unfiltered E segments.
Proof.
  induction segments as [|s rest IH]; intros max_count count top Hle; simpl.
  - rewrite app_nil_r. reflexivity.
  - destruct (ShouldFilterSegment E s); simpl.
    + apply IH. exact Hle.
    + destruct (Z.eqb_spec (count + 1) max_count) as [Heq|Hne]; [lia|].
      rewrite IH by lia. rewrite <- app_assoc. reflexivity.
Qed.

(** X2: A cap of zero or less is no cap: the counter is compared with it only
    after it was incremented, so the loop never breaks and every segment
    that is not on the filter list is returned. *)
Theorem FilterSegments_cap_not_positive (segments : SegmentList)
    (max_count : Z) :
  max_count <= 0 ->
  ad_targeting.FilterSegments E segments max_count = unfiltered E segments.
Proof.
  intros Hle. unfold ad_targeting.FilterSegments.
  rewrite FilterSegments_loop_uncapped by exact Hle. reflexivity.
Qed.

Lemma GetTopSegments_shape (info : SegmentsInfo) (for_parent : bool) :
  exists text,
    ad_targeting.GetTopSegments E info for_parent
    = text ++ epsilon_greedy_bandit_segments info
           ++ purchase_intent_segments info
    /\ (length text <= 3)%nat
    /\ (forall s, s ∈ text -> ShouldFilterSegment E s = false).
Proof.
  unfold ad_targeting.GetTopSegments. simpl.
  set (text := if for_parent then text_classification_segments info
               else GetParentSegments E (text_classification_segments info)).
  exists (ad_targeting.FilterSegments E text
            ad_targeting.kTopTextClassificationSegmentCount).
  assert (Hpos : 0 < ad_targeting.kTopTextClassificationSegmentCount)
    by (unfold ad_targeting.kTopTextClassificationSegmentCount; lia).
  rewrite (FilterSegments_top E text _ Hpos).
  unfold ad_targeting.top_filtered,
    ad_targeting.kTopTextClassificationSegmentCount.
  split; [rewrite <- app_assoc; reflexivity|]. split.
  - rewrite length_take. change (Z.to_nat 3) with 3%nat. lia.
  - intros s Hs. apply elem_of_take in Hs as (i & Hs & _).
    apply list_elem_of_lookup_2 in Hs.
    apply unfiltered_elem in Hs. apply Hs.
Qed.

(** X3: Only the text-classification segments go through the filter list and
    the cap of 3: whatever the variant, the bandit and purchase-intent
    segments follow in full, filtered or not, so the result has at most
    three segments more than those two lists. *)
Theorem GetTopSegments_behavioural_segments_kept (info : SegmentsInfo)
    (for_parent : bool) :
  let top := ad_targeting.GetTopSegments E info for_parent in
  (exists text,
     top = text ++ epsilon_greedy_bandit_segments info
                ++ purchase_intent_segments info
     /\ (forall s, s ∈ text -> ShouldFilterSegment E s = false))
  /\ (length top
      <= 3 + length (epsilon_greedy_bandit_segments info)
           + length (purchase_intent_segments info))%nat
  /\ (forall s,
        s ∈ epsilon_greedy_bandit_segments info
        \/ s ∈ purchase_intent_segments info ->
        s ∈ top).
Proof.
  simpl.
  destruct (GetTopSegments_shape info for_parent)
    as (text & Htop & Hlen & Hkeep).
  rewrite Htop. split; [eauto|]. split.
  - rewrite !length_app. lia.
  - intros s Hs. rewrite !elem_of_app. tauto.
Qed.


End SegmentResolverMore.


Lemma FilterSegments_cap_not_positive_witness :
  let E := with_filter_list ["b"] (Scenario.env [] true []) in
  ad_targeting.FilterSegments E ["a"; "b"; "c"; "d"; "e"] 0
  = ["a"; "c"; "d"; "e"].
Proof.
  intros E.
  exact (FilterSegments_cap_not_positive E ["a"; "b"; "c"; "d"; "e"] 0
           (Z.le_refl 0)).
Defined.

(** ** More on frequency capping and the pipeline *)

Section PipelineMore.

Context {double : Type} `{DoubleOps double} (E : Env double).

Lemma filter_filter_comm {A} (f g : A -> bool) (l : list A) :
  List.filter f (List.filter g l) = List.filter g (List.filter f l).
Proof.
  induction l as [|x l IH]; simpl; [reflexivity|].
  destruct (g x) eqn:Hg, (f x) eqn:Hf; simpl;
    rewrite ?Hg, ?Hf, IH; reflexivity.
Qed.

Lemma filter_filter_same {A} (f : A -> bool) (l : list A) :
  List.filter f (List.filter f l) = List.filter f l.
Proof.
  apply filter_all. intros x Hx.
  apply list_elem_of_In, filter_In in Hx. apply Hx.
Qed.

(** X5: [ApplyFrequencyCapping] returns, in their order, exactly the ads that
    no exclusion rule excludes and whose instance id differs from the one
    of the ad it is given as last served. *)
Theorem ApplyFrequencyCapping_keeps_exactly
    (this : inline_content_ads.EligibleAds) (ads : CreativeAdList double)
    (last : CreativeAdInfo double) (ad_events : AdEventList)
    (history : BrowsingHistoryList) :
  let out :=
    inline_content_ads.ApplyFrequencyCapping E this ads last ad_events
                                             history in
  sublist out ads
  /\ (forall c, c ∈ out ->
        ShouldExcludeAd E ad_events history c = false
        /\ creative_instance_id c <> creative_instance_id last)
  /\ (forall c, c ∈ ads ->
        ShouldExcludeAd E ad_events history c = false ->
        creative_instance_id c <> creative_instance_id last ->
        c ∈ out).
Proof.
  simpl. split; [apply filter_sublist|]. split.
  - intros c Hc. apply ApplyFrequencyCapping_elem in Hc. tauto.
  - intros c Hc Hrule Hid. apply ApplyFrequencyCapping_elem. auto.
Qed.

(** X6: Capping composes: capping twice is capping once, capping a
    concatenation is concatenating the capped parts, and capping against
    two last served ads gives the same list in either order. *)
Theorem ApplyFrequencyCapping_composes
    (this : inline_content_ads.EligibleAds) (ads ads' : CreativeAdList double)
    (last last' : CreativeAdInfo double) (ad_events : AdEventList)
    (history : BrowsingHistoryList) :
  let cap l x :=
    inline_content_ads.ApplyFrequencyCapping E this l x ad_events history in
  cap (cap ads last) last = cap ads last
  /\ cap (ads ++ ads') last = cap ads last ++ cap ads' last
  /\ cap (cap ads last) last' = cap (cap ads last') last.
Proof.
  simpl. unfold inline_content_ads.ApplyFrequencyCapping.
  split; [apply filter_filter_same|].
  split; [apply List.filter_app | apply filter_filter_comm].
Qed.

(** What every ad returned by [FilterIneligibleAds] satisfies, as long as
    pacing and prioritizing return ads of their input. *)
Lemma FilterIneligibleAds_elem_rules
    (this : inline_content_ads.EligibleAds) (ads : CreativeAdList double)
    (ad_events : AdEventList) (history : BrowsingHistoryList) c :
  (forall l x, x ∈ PaceAds E l -> x ∈ l) ->
  (forall l x, x ∈ PrioritizeAds E l -> x ∈ l) ->
  c ∈ inline_content_ads.FilterIneligibleAds E this ads ad_events history ->
  ShouldExcludeAd E ad_events history c = false
  /\ creative_instance_id c
     <> creative_instance_id
          (if inline_content_ads.ShouldCapLastServedAd ads
           then inline_content_ads.last_served_creative_ad_ this
           else inline_content_ads.default_CreativeAdInfo).
Proof.
  intros Hpace Hprio Hc.
  destruct ads as [|a ads]; [inversion Hc|].
  rewrite FilterIneligibleAds_stages in Hc by discriminate.
  apply Hprio, Hpace, ApplyFrequencyCapping_elem in Hc. tauto.
Qed.

(** X7: Whatever the seen-advertiser and seen-ad stages do, an ad returned by
    [FilterIneligibleAds] is excluded by no exclusion rule; it is not the
    last served ad when the input has more than one ad, and it has a
    non-empty instance id when the input has exactly one. *)
Theorem FilterIneligibleAds_respects_exclusion_rules
    (this : inline_content_ads.EligibleAds) (ads : CreativeAdList double)
    (ad_events : AdEventList) (history : BrowsingHistoryList) :
  (forall l x, x ∈ PaceAds E l -> x ∈ l) ->
  (forall l x, x ∈ PrioritizeAds E l -> x ∈ l) ->
  forall c,
    c ∈ inline_content_ads.FilterIneligibleAds E this ads ad_events history ->
    ShouldExcludeAd E ad_events history c = false
    /\ (length ads <> 1%nat ->
        creative_instance_id c
        <> creative_instance_id
             (inline_content_ads.last_served_creative_ad_ this))
    /\ (length ads = 1%nat -> creative_instance_id c <> "").
Proof.
  intros Hpace Hprio c Hc.
  destruct (FilterIneligibleAds_elem_rules this ads ad_events history c
              Hpace Hprio Hc) as [Hrule Hid].
  split; [exact Hrule|]. split; intros Hlen.
  - destruct (inline_content_ads.ShouldCapLastServedAd ads) eqn:Hcap;
      [exact Hid|].
    apply ShouldCapLastServedAd_false_iff in Hcap. contradiction.
  - apply ShouldCapLastServedAd_false_iff in Hlen. rewrite Hlen in Hid.
    exact Hid.
Qed.

End PipelineMore.

Lemma scenario_stages_return_input_ads catalog events_ok seen :
  let E := Scenario.env catalog events_ok seen in
  (forall l x, x ∈ PaceAds E l -> x ∈ l)
  /\ (forall l x, x ∈ PrioritizeAds E l -> x ∈ l).
Proof.
  destruct (scenario_stages_only_remove catalog events_ok seen)
    as (_ & _ & Hpace & Hprio).
  split; intros l x Hx.
  - exact (elem_of_sublist _ _ _ Hx (Hpace l)).
  - exact (elem_of_sublist _ _ _ Hx (Hprio l)).
Qed.

(** The pipeline on two ads of which the second was served last. *)
Lemma FilterIneligibleAds_respects_exclusion_rules_witness :
  let a := Scenario.mk_ad "a" "A" "untargeted" 1 in
  let b := Scenario.mk_ad "b" "B" "untargeted" 1 in
  let E := Scenario.env [a; b] true [] in
  let this := Scenario.engine b in
  inline_content_ads.FilterIneligibleAds E this [a; b] [] [] = [a]
  /\ ShouldExcludeAd E [] [] a = false
  /\ (length [a; b] <> 1%nat ->
      creative_instance_id a
      <> creative_instance_id
           (inline_content_ads.last_served_creative_ad_ this))
  /\ (length [a; b] = 1%nat -> creative_instance_id a <> "").
Proof.
  intros a b E this. split; [reflexivity|].
  refine (FilterIneligibleAds_respects_exclusion_rules E this [a; b] [] []
            (proj1 (scenario_stages_return_input_ads [a; b] true []))
            (proj2 (scenario_stages_return_input_ads [a; b] true []))
            a _).
  vm_compute. left.
Defined.

(** ** More on the selection orchestrator *)

Section OrchestratorMore.

Context {double : Type} `{DoubleOps double} (E : Env double).

Lemma first_nonempty_cases (tiers : list (CreativeAdList double)) :
  first_nonempty tiers = [] \/ first_nonempty tiers ∈ tiers.
Proof.
  unfold first_nonempty.
  destruct (List.find _ tiers) as [t|] eqn:Hfind; [|left; reflexivity].
  right. apply find_some in Hfind as [Hin _].
  apply list_elem_of_In. exact Hin.
Qed.

Lemma cascade_calls_shape this segments dimensions ad_events history :
  let queries := cascade_calls E this segments dimensions ad_events history in
  (1 <= length queries <= 3)%nat
  /\ Forall (fun q => exists segs, q = query segs dimensions) queries.
Proof.
  unfold cascade_calls. simpl.
  destruct (is_empty (tier E this segments _ _ _));
    [destruct (is_empty (tier E this (GetParentSegments E _) _ _ _))|];
    simpl; (split; [lia|]); repeat constructor; eexists; reflexivity.
Qed.

(** What [GetForSegments] hands to its callback and which store calls it
    issues. *)
Lemma GetForSegments_outcome (this : inline_content_ads.EligibleAds)
    (segments : SegmentList) (dimensions : string) :
  let ad_events := snd (db_AdEvents_GetAll E) in
  let history := history_of E in
  exists allowed ads rest,
    (forall R (callback : bool -> CreativeAdList double -> Async R) log,
       inline_content_ads.GetForSegments E this segments dimensions callback
         log
       = callback allowed ads (log ++ AdEvents_GetAll :: rest))
    /\ (fst (db_AdEvents_GetAll E) = false -> rest = [] /\ ads = [])
    /\ (fst (db_AdEvents_GetAll E) = true ->
        exists queries,
          rest = history_call E :: queries
          /\ (1 <= length queries <= 3)%nat
          /\ Forall (fun q => exists segs, q = query segs dimensions) queries
          /\ (ads = []
              \/ exists segs,
                   ads = tier E this segs dimensions ad_events history)).
Proof.
  simpl. destruct (db_AdEvents_GetAll E) as [ok ev] eqn:Hev. simpl.
  destruct ok.
  - destruct (is_empty segments) eqn:Hsegs.
    + exists true, (tier E this [inline_content_ads.kUntargeted] dimensions
                         ev (history_of E)),
        [history_call E; query [inline_content_ads.kUntargeted] dimensions].
      split; [|split; [discriminate|]].
      * intros R callback log.
        rewrite (GetForSegments_run E this segments dimensions ev callback
                   log Hev).
        rewrite Hsegs, GetForUntargeted_run, <- app_assoc. reflexivity.
      * intros _. eexists. split; [reflexivity|]. simpl.
        split; [lia|]. split; [|right; eexists; reflexivity].
        repeat constructor. eexists. reflexivity.
    + destruct (is_empty (tier E this segments dimensions ev (history_of E)))
        eqn:Ht;
        [destruct (decide (GetParentSegments E
                             (returned_segments E segments dimensions)
                           = returned_segments E segments dimensions))
           as [Hp | Hp]|].
      * (* cut short by the guard *)
        exists false, [], [history_call E; query segments dimensions].
        split; [|split; [discriminate|]].
        -- intros R callback log.
           rewrite (GetForSegments_run E this segments dimensions ev callback
                      log Hev).
           rewrite Hsegs.
           apply is_empty_true in Ht.
           rewrite (GetForParentChildSegments_refuses E this segments
                      dimensions ev _ callback _ Ht Hp).
           rewrite <- app_assoc. reflexivity.
        -- intros _. eexists. split; [reflexivity|]. simpl.
           split; [lia|]. split; [|left; reflexivity].
           repeat constructor. eexists. reflexivity.
      * exists true, (cascade_as_specified E this segments dimensions ev
                        (history_of E)),
          (history_call E
           :: cascade_calls E this segments dimensions ev (history_of E)).
        split; [|split; [discriminate|]].
        -- intros R callback log.
           rewrite (GetForSegments_run E this segments dimensions ev callback
                      log Hev).
           rewrite Hsegs.
           rewrite (GetForParentChildSegments_answers E this segments
                      dimensions ev _ callback _ (or_intror Hp)).
           rewrite <- app_assoc. reflexivity.
        -- intros _. eexists. split; [reflexivity|].
           destruct (cascade_calls_shape this segments dimensions ev
                       (history_of E)) as [Hlen Hall].
           split; [exact Hlen|]. split; [exact Hall|].
           destruct (first_nonempty_cases
                       [tier E this segments dimensions ev (history_of E);
                        tier E this
                          (GetParentSegments E
                             (returned_segments E segments dimensions))
                          dimensions ev (history_of E);
                        tier E this [inline_content_ads.kUntargeted]
                          dimensions ev (history_of E)]) as [Hnil | Hin].
           ++ left. exact Hnil.
           ++ right. unfold cascade_as_specified.
              rewrite !elem_of_cons in Hin.
              destruct Hin as [Hin | [Hin | [Hin | Hin]]];
                [eexists; exact Hin .. | inversion Hin].
      * exists true, (cascade_as_specified E this segments dimensions ev
                        (history_of E)),
          (history_call E
           :: cascade_calls E this segments dimensions ev (history_of E)).
        apply is_empty_false in Ht.
        split; [|split; [discriminate|]].
        -- intros R callback log.
           rewrite (GetForSegments_run E this segments dimensions ev callback
                      log Hev).
           rewrite Hsegs.
           rewrite (GetForParentChildSegments_answers E this segments
                      dimensions ev _ callback _ (or_introl Ht)).
           rewrite <- app_assoc. reflexivity.
        -- intros _. eexists. split; [reflexivity|].
           destruct (cascade_calls_shape this segments dimensions ev
                       (history_of E)) as [Hlen Hall].
           split; [exact Hlen|]. split; [exact Hall|].
           destruct (first_nonempty_cases
                       [tier E this segments dimensions ev (history_of E);
                        tier E this
                          (GetParentSegments E
                             (returned_segments E segments dimensions))
                          dimensions ev (history_of E);
                        tier E this [inline_content_ads.kUntargeted]
                          dimensions ev (history_of E)]) as [Hnil | Hin].
           ++ left. exact Hnil.
           ++ right. unfold cascade_as_specified.
              rewrite !elem_of_cons in Hin.
              destruct Hin as [Hin | [Hin | [Hin | Hin]]];
                [eexists; exact Hin .. | inversion Hin].
  - exists false, [], [].
    split; [|split; [auto | discriminate]].
    intros R callback log.
    apply GetForSegments_events_failed. rewrite Hev. reflexivity.
Qed.

End OrchestratorMore.

Section OrchestratorExtras.

Context {double : Type} `{DoubleOps double} (E : Env double).

(** X8: [GetForSegments] issues between one and five store calls: the ad
    events first and alone when that lookup fails; otherwise the browsing
    history next, with the configured window, then one to three queries to
    the creative store, each with the caller's dimensions. *)
Theorem GetForSegments_store_calls (this : inline_content_ads.EligibleAds)
    (segments : SegmentList) (dimensions : string) :
  exists allowed ads calls,
    (forall R (callback : bool -> CreativeAdList double -> Async R) log,
       inline_content_ads.GetForSegments E this segments dimensions callback
         log
       = callback allowed ads (log ++ calls))
    /\ (1 <= length calls <= 5)%nat
    /\ calls !! 0%nat = Some AdEvents_GetAll
    /\ (fst (db_AdEvents_GetAll E) = false -> calls = [AdEvents_GetAll])
    /\ (fst (db_AdEvents_GetAll E) = true ->
        calls !! 1%nat
        = Some (Client_GetBrowsingHistory (GetBrowsingHistoryMaxCount E)
                                          (GetBrowsingHistoryDaysAgo E))
        /\ (3 <= length calls)%nat
        /\ Forall (fun q => exists segs, q = query segs dimensions)
                  (drop 2 calls)).
Proof.
  destruct (GetForSegments_outcome E this segments dimensions)
    as (allowed & ads & rest & Hrun & Hfail & Hok).
  exists allowed, ads, (AdEvents_GetAll :: rest).
  split; [exact Hrun|].
  destruct (fst (db_AdEvents_GetAll E)) eqn:Hev.
  - destruct (Hok eq_refl) as (queries & -> & Hlen & Hall & _).
    simpl. repeat split; try lia; try discriminate. exact Hall.
  - destruct (Hfail eq_refl) as [-> _].
    simpl. repeat split; try lia; discriminate.
Qed.


Lemma tier_ignores_store_status ok this segments dimensions ad_events history :
  tier (with_creative_store_reporting ok E) this segments dimensions ad_events
       history
  = tier E this segments dimensions ad_events history.
Proof. reflexivity. Qed.

(** X9: [GetForSegments] never looks at the status the creative store reports
    with its answer: whether the store says success or failure, the ads
    and segments that come with the answer are processed the same way and
    the callback receives the same arguments. *)
Theorem GetForSegments_ignores_creative_store_status (ok : bool)
    (this : inline_content_ads.EligibleAds) (segments : SegmentList)
    (dimensions : string) {R : Type}
    (callback : bool -> CreativeAdList double -> Async R) (log : CallLog) :
  inline_content_ads.GetForSegments (with_creative_store_reporting ok E) this
    segments dimensions callback log
  = inline_content_ads.GetForSegments E this segments dimensions callback log.
Proof.
  unfold inline_content_ads.GetForSegments,
    inline_content_ads.AdEvents_table_GetAll,
    inline_content_ads.AdsClient_GetBrowsingHistory. simpl.
  destruct (db_AdEvents_GetAll E) as [success ev]. simpl.
  destruct success; simpl; [|reflexivity].
  destruct (is_empty segments).
  - rewrite !GetForUntargeted_run. reflexivity.
  - rewrite !GetForParentChildSegments_run. simpl.
    rewrite tier_ignores_store_status.
    destruct (is_empty (tier E this segments dimensions ev _));
      [|reflexivity].
    rewrite !GetForParentSegments_run. simpl.
    change (returned_segments (with_creative_store_reporting ok E) segments
              dimensions)
      with (returned_segments E segments dimensions).
    destruct (bool_decide _); reflexivity.
Qed.

Lemma GetFromAdPredictorScores_delivers
    (this : inline_content_ads.EligibleAds)
    (interest_segments intent_segments : SegmentList) (dimensions : string)
    (ad_events : AdEventList) (ads : CreativeAdList double) :
  db_AdEvents_GetAll E = (true, ad_events) ->
  db_GetForDimensions E dimensions = (true, ads) ->
  (7 <= length (GetAdPredictorWeights E))%nat ->
  exists ad,
    forall R (callback : bool -> option (CreativeAdInfo double) -> Async R)
           log,
      inline_content_ads.GetFromAdPredictorScores E this interest_segments
        intent_segments dimensions callback log
      = callback true ad
          (log ++ [AdEvents_GetAll; history_call E;
                   CreativeAds_GetForDimensions dimensions]).
Proof.
  intros Hev Hdb Hlen.
  set (eligible_ads :=
         inline_content_ads.ApplyFrequencyCapping E this ads
           (if inline_content_ads.ShouldCapLastServedAd ads
            then inline_content_ads.last_served_creative_ad_ this
            else inline_content_ads.default_CreativeAdInfo)
           ad_events (history_of E)).
  destruct (is_empty eligible_ads) eqn:Hempty.
  - exists None. intros R callback log.
    rewrite (GetFromAdPredictorScores_run E this interest_segments
               intent_segments dimensions ad_events ads callback log Hev Hdb).
    fold eligible_ads. rewrite Hempty. reflexivity.
  - destruct (ComputePredictorFeaturesAndScores_total E
                (GroupEligibleAdsByCreativeInstanceId E eligible_ads)
                ad_events interest_segments intent_segments Hlen)
      as [scored Hscored].
    exists (SampleFromAds E scored). intros R callback log.
    rewrite (GetFromAdPredictorScores_run E this interest_segments
               intent_segments dimensions ad_events ads callback log Hev Hdb).
    fold eligible_ads. rewrite Hempty.
    unfold inline_content_ads.ChooseAd. rewrite Hscored. reflexivity.
Qed.

(** X12: Unlike [GetForSegments], the predictor path reports every failed
    lookup and nothing else: the callback of [GetFromAdPredictorScores]
    receives [allowed = false] and no ad when the ad-event store or the
    creative store fails, and [allowed = true] otherwise (the weight vector
    having its seven slots). *)
Theorem GetFromAdPredictorScores_allowed_false_iff
    (this : inline_content_ads.EligibleAds)
    (interest_segments intent_segments : SegmentList) (dimensions : string) :
  let failed :=
    fst (db_AdEvents_GetAll E) = false
    \/ fst (db_GetForDimensions E dimensions) = false in
  (failed ->
   exists calls,
     forall R (callback : bool -> option (CreativeAdInfo double) -> Async R)
            log,
       inline_content_ads.GetFromAdPredictorScores E this interest_segments
         intent_segments dimensions callback log
       = callback false None (log ++ calls))
  /\ (~ failed ->
      (7 <= length (GetAdPredictorWeights E))%nat ->
      exists ad calls,
        forall R
               (callback : bool -> option (CreativeAdInfo double) -> Async R)
               log,
          inline_content_ads.GetFromAdPredictorScores E this interest_segments
            intent_segments dimensions callback log
          = callback true ad (log ++ calls)).
Proof.
  simpl.
  destruct (db_AdEvents_GetAll E) as [ok ev] eqn:Hev.
  destruct (db_GetForDimensions E dimensions) as [ok' ads] eqn:Hdb.
  simpl. split.
  - intros Hfailed. destruct ok.
    + destruct Hfailed as [Hf | Hf]; [discriminate|]. subst ok'.
      eexists. intros R callback log.
      unfold inline_content_ads.GetFromAdPredictorScores,
        inline_content_ads.AdEvents_table_GetAll,
        inline_content_ads.AdsClient_GetBrowsingHistory,
        inline_content_ads.GetEligibleAds,
        inline_content_ads.CreativeAds_table_GetForDimensions.
      rewrite Hev. simpl. rewrite Hdb. simpl.
      rewrite <- !app_assoc. reflexivity.
    + exists [AdEvents_GetAll]. intros R callback log.
      unfold inline_content_ads.GetFromAdPredictorScores,
        inline_content_ads.AdEvents_table_GetAll.
      rewrite Hev. reflexivity.
  - intros Hnot Hlen.
    destruct ok; [|exfalso; apply Hnot; left; reflexivity].
    destruct ok'; [|exfalso; apply Hnot; right; reflexivity].
    destruct (GetFromAdPredictorScores_delivers
                this interest_segments intent_segments dimensions ev ads
                Hev Hdb Hlen) as (ad & Hrun).
    exists ad. eexists. exact Hrun.
Qed.

End OrchestratorExtras.

(** ** More on the predictor and the scorer *)

Section PredictorMore.

Context {double : Type} `{DoubleOps double} (E : Env double).

(** [ComputePredictorScore] aborts on [weights.at] exactly when a branch it
    takes reads a slot the weight vector does not have. *)
Lemma ComputePredictorScore_out_of_range_iff (p : AdPredictorInfo double) :
  ComputePredictorScore E p = inl out_of_range
  <-> exists i, reads_weight p i = true
                /\ GetAdPredictorWeights E !! weight_index i = None.
Proof.
  unfold ComputePredictorScore, weights_at, reads_weight, kHoursPerDay.
  set (ws := GetAdPredictorWeights E).
  destruct (does_match_intent_child_segments p),
    (does_match_intent_parent_segments p),
    (does_match_interest_child_segments p),
    (does_match_interest_parent_segments p),
    (ad_last_seen_hours_ago p <=? 24),
    (advertiser_last_seen_hours_ago p <=? 24),
    (0 <? priority (creative_ad p))%N eqn:Hprio;
    simpl;
    repeat (match goal with
            | |- context [ws !! ?i] => destruct (ws !! i) eqn:?
            end; simpl);
    rewrite ?(divide_nonzero _ _ (priority_divisor_nonzero _ Hprio));
    simpl;
    (split;
     [ intros Habort; try discriminate Habort;
       first [ exists kMatchesIntentChildSegment; split; [reflexivity|assumption]
             | exists kMatchesIntentParentSegment; split; [reflexivity|assumption]
             | exists kMatchesInterestChildSegment; split; [reflexivity|assumption]
             | exists kMatchesInterestParentSegment; split; [reflexivity|assumption]
             | exists kAdLastSeenInHours; split; [reflexivity|assumption]
             | exists kAdvertiserLastSeenInHours; split; [reflexivity|assumption]
             | exists kPriority; split; [reflexivity|assumption] ]
     | intros [i [Hreads Hnone]]; destruct i; simpl in *;
       try discriminate; try congruence ]).
Qed.

Lemma ComputePredictorScore_abort_is_out_of_range (p : AdPredictorInfo double)
    (e : Abort) :
  ComputePredictorScore E p = inl e -> e = out_of_range.
Proof.
  intros Habort. destruct e; [reflexivity|].
  exfalso. exact (ComputePredictorScore_no_zero_divisor E p Habort).
Qed.

(** X14: [ComputePredictorScore] returns a score exactly when the weight vector
    has a slot for every weight the ad's features make it read; a slot it
    does not read may be missing. *)
Theorem ComputePredictorScore_returns_iff (p : AdPredictorInfo double) :
  (exists s, ComputePredictorScore E p = ret s)
  <-> forall i, reads_weight p i = true ->
                is_Some (GetAdPredictorWeights E !! weight_index i).
Proof.
  split.
  - intros [s Hs] i Hreads.
    destruct (GetAdPredictorWeights E !! weight_index i) eqn:Hi; [eauto|].
    exfalso.
    assert (Habort : ComputePredictorScore E p = inl out_of_range)
      by (apply ComputePredictorScore_out_of_range_iff; eauto).
    rewrite Hs in Habort. discriminate.
  - intros Hall.
    destruct (ComputePredictorScore E p) as [e|s] eqn:Hscore; [|eauto].
    exfalso.
    rewrite (ComputePredictorScore_abort_is_out_of_range p e Hscore)
      in Hscore.
    apply ComputePredictorScore_out_of_range_iff in Hscore
      as (i & Hreads & Hnone).
    destruct (Hall i Hreads) as [w Hw]. congruence.
Qed.

(** X15: An ad whose segments meet the parents of the interest segments is
    credited the intent-parent weight although there is no intent segment
    at all: the intent-parent flag is computed from the interest
    segments. *)
Theorem intent_parent_weight_without_intent_segments
    (w0 w1 w2 w3 w4 w5 w6 : double) (more : list double)
    (p : AdPredictorInfo double) (ad_events : AdEventList)
    (interest_segments : SegmentList) :
  GetAdPredictorWeights E = w0 :: w1 :: w2 :: w3 :: w4 :: w5 :: w6 :: more ->
  (exists s, s ∈ GetParentSegments E interest_segments /\ s ∈ segments p) ->
  let p' := ComputePredictorFeatures E p ad_events interest_segments [] in
  does_match_intent_child_segments p' = false
  /\ does_match_intent_parent_segments p' = true
  /\ ComputePredictorScore E p'
     = ret (d_mul
              (fold_left add_term
                 [ Some w1;
                   match_term w2 w3 (does_match_interest_child_segments p')
                              true;
                   recency_term w4 (ad_last_seen_hours_ago p');
                   recency_term w5 (advertiser_last_seen_hours_ago p');
                   priority_term w6 (priority (creative_ad p)) ]
                 d_zero)
              (ptr (creative_ad p))).
Proof.
  intros Hw Hmeet p'.
  assert (Hparent : does_match_intent_parent_segments p' = true)
    by (apply (proj2 (intersects_iff _ _)), Hmeet).
  assert (Hparent' : does_match_interest_parent_segments p' = true)
    by exact Hparent.
  assert (Hchild : does_match_intent_child_segments p' = false)
    by reflexivity.
  split; [exact Hchild|]. split; [exact Hparent|].
  rewrite (ComputePredictorScore_formula E w0 w1 w2 w3 w4 w5 w6 more p' Hw).
  unfold score_formula, sum_before_priority.
  rewrite Hchild, Hparent, Hparent'. reflexivity.
Qed.

(** *** The scored map *)

Lemma map_insert_elem k v (m : CreativeAdPredictorMap double) x :
  x ∈ map_insert k v m -> x = (k, v) \/ x ∈ m.
Proof.
  induction m as [|[k' v'] m IH]; simpl.
  - intros Hx. apply list_elem_of_singleton in Hx. auto.
  - destruct (String.compare k k').
    + auto.
    + rewrite elem_of_cons. tauto.
    + rewrite !elem_of_cons. intros [Hx | Hx]; [tauto|].
      destruct (IH Hx); tauto.
Qed.

Lemma map_insert_keeps k v (m : CreativeAdPredictorMap double) x :
  x ∈ m -> x ∈ map_insert k v m.
Proof.
  induction m as [|[k' v'] m IH]; simpl; [intros Hx; inversion Hx|].
  destruct (String.compare k k'); rewrite ?elem_of_cons; [tauto | tauto |].
  intros [Hx | Hx]; [tauto | right; exact (IH Hx)].
Qed.

Lemma map_insert_has_key k v (m : CreativeAdPredictorMap double) :
  exists v', (k, v') ∈ map_insert k v m.
Proof.
  induction m as [|[k' v'] m IH]; simpl.
  - exists v. left.
  - destruct (String.compare k k') eqn:Hcmp.
    + apply String.compare_eq_iff in Hcmp. subst k'. exists v'. left.
    + exists v. left.
    + destruct IH as [v'' Hin]. exists v''. right. exact Hin.
Qed.

Lemma map_insert_increasing k v (m : CreativeAdPredictorMap double) :
  keys_increasing m -> keys_increasing (map_insert k v m).
Proof.
  unfold keys_increasing.
  induction m as [|[k' v'] m IH]; simpl; intros Hsorted.
  - repeat constructor.
  - destruct (String.compare k k') eqn:Hcmp.
    + exact Hsorted.
    + constructor; [exact Hsorted | constructor; exact Hcmp].
    + inversion Hsorted as [|? ? Hrest Hhd]; subst.
      constructor; [exact (IH Hrest)|].
      assert (Hlt : String.compare k' k = Lt)
        by (rewrite String.compare_antisym, Hcmp; reflexivity).
      destruct m as [|[k'' v''] m]; simpl; [constructor; exact Hlt|].
      destruct (String.compare k k''); constructor;
        first [exact Hlt | inversion Hhd; assumption].
Qed.

Lemma score_loop_aborted ad_events interest_segments intent_segments
    (ads : CreativeAdPredictorMap double) (e : Abort) :
  fold_left (score_step E ad_events interest_segments intent_segments) ads
            (inl e)
  = inl e.
Proof. induction ads as [|ad ads IH]; simpl; [reflexivity | exact IH]. Qed.

Lemma score_loop_invariant all ad_events interest_segments intent_segments :
  forall (ads acc scored : CreativeAdPredictorMap double),
    fold_left (score_step E ad_events interest_segments intent_segments) ads
              (ret acc)
    = ret scored ->
    (forall x, x ∈ ads -> x ∈ all) ->
    keys_increasing acc ->
    (forall x, x ∈ acc ->
       scored_from E all ad_events interest_segments intent_segments x) ->
    keys_increasing scored
    /\ (forall x, x ∈ scored ->
          scored_from E all ad_events interest_segments intent_segments x)
    /\ (forall x, x ∈ acc -> x ∈ scored \/ exists v, (fst x, v) ∈ scored)
    /\ (forall k0 p0, (k0, p0) ∈ ads ->
          exists v, (creative_instance_id (creative_ad p0), v) ∈ scored).
Proof.
  induction ads as [|[k p] ads IH]; intros acc scored Hfold Hall Hsorted Hacc.
  - simpl in Hfold. injection Hfold as <-.
    split; [exact Hsorted|]. split; [exact Hacc|].
    split; [intros x Hx; left; exact Hx|].
    intros k0 p0 Hin. inversion Hin.
  - simpl in Hfold.
    destruct (ComputePredictorScore E
                (ComputePredictorFeatures E p ad_events interest_segments
                                          intent_segments)) as [e|s] eqn:Hs.
    { simpl in Hfold. rewrite score_loop_aborted in Hfold. discriminate. }
    simpl in Hfold.
    set (p' := set_score
                 (ComputePredictorFeatures E p ad_events interest_segments
                                           intent_segments) s) in *.
    set (id := creative_instance_id
                 (creative_ad
                    (ComputePredictorFeatures E p ad_events interest_segments
                                              intent_segments))) in *.
    destruct (IH (map_insert id p' acc) scored Hfold) as (Hsc & Hfrom & Hkeep
                                                          & Hcover).
    + intros x Hx. apply Hall. right. exact Hx.
    + apply map_insert_increasing. exact Hsorted.
    + intros x Hx. apply map_insert_elem in Hx as [-> | Hx]; [|auto].
      split; [reflexivity|].
      exists k, p, s. split; [apply Hall; left | split; [exact Hs|reflexivity]].
    + split; [exact Hsc|]. split; [exact Hfrom|]. split.
      * intros x Hx. apply Hkeep. apply map_insert_keeps. exact Hx.
      * intros k0 p0 Hin. apply elem_of_cons in Hin as [Hin | Hin].
        -- injection Hin as -> ->.
           destruct (map_insert_has_key id p' acc) as [v Hv].
           destruct (Hkeep _ Hv) as [Hv' | Hv']; [eauto | exact Hv'].
        -- exact (Hcover k0 p0 Hin).
Qed.

(** X16: The map returned by [ComputePredictorFeaturesAndScores] is keyed by
    creative instance id: its keys strictly increase, every entry sits
    under the instance id of its own ad and is an input predictor with
    features and score filled in, and every input predictor's instance id
    is a key. *)
Theorem ComputePredictorFeaturesAndScores_keyed_by_instance_id
    (ads scored : CreativeAdPredictorMap double) (ad_events : AdEventList)
    (interest_segments intent_segments : SegmentList) :
  ComputePredictorFeaturesAndScores E ads ad_events interest_segments
                                    intent_segments
  = ret scored ->
  keys_increasing scored
  /\ (forall k v, (k, v) ∈ scored ->
        k = creative_instance_id (creative_ad v)
        /\ exists k0 p0 s,
             (k0, p0) ∈ ads
             /\ ComputePredictorScore E
                  (ComputePredictorFeatures E p0 ad_events interest_segments
                                            intent_segments)
                = ret s
             /\ v = set_score
                      (ComputePredictorFeatures E p0 ad_events
                         interest_segments intent_segments) s)
  /\ (forall k0 p0, (k0, p0) ∈ ads ->
        exists v, (creative_instance_id (creative_ad p0), v) ∈ scored).
Proof.
  intros Hscored.
  destruct (score_loop_invariant ads ad_events interest_segments
              intent_segments ads [] scored Hscored)
    as (Hsorted & Hfrom & _ & Hcover).
  - auto.
  - constructor.
  - intros x Hx. inversion Hx.
  - split; [exact Hsorted|]. split; [|exact Hcover].
    intros k v Hin. exact (Hfrom (k, v) Hin).
Qed.

(** X17: A predictor whose ad was never seen gets 0 hours, which is within the
    day, so its score reads the ad-recency weight: with fewer than five
    weight slots [ComputePredictorFeaturesAndScores] aborts as soon as one
    of its predictors was never seen. *)
Theorem ComputePredictorFeaturesAndScores_needs_recency_weight
    (ads : CreativeAdPredictorMap double) (ad_events : AdEventList)
    (interest_segments intent_segments : SegmentList) k p :
  (length (GetAdPredictorWeights E) <= 4)%nat ->
  (k, p) ∈ ads ->
  GetLastSeenAdTime E ad_events (creative_ad p) = None ->
  ComputePredictorFeaturesAndScores E ads ad_events interest_segments
                                    intent_segments
  = inl out_of_range.
Proof.
  intros Hlen Hin Hnever.
  assert (Habort :
            ComputePredictorScore E
              (ComputePredictorFeatures E p ad_events interest_segments
                                        intent_segments)
            = inl out_of_range).
  { apply ComputePredictorScore_out_of_range_iff.
    exists kAdLastSeenInHours. split.
    - simpl. rewrite Hnever. reflexivity.
    - apply lookup_ge_None. simpl. lia. }
  unfold ComputePredictorFeaturesAndScores.
  generalize (@nil (string * AdPredictorInfo double)).
  induction ads as [|[k' p'] ads IH]; intros acc; [inversion Hin|].
  simpl.
  apply elem_of_cons in Hin as [Hin | Hin].
  - injection Hin as <- <-. rewrite Habort. simpl.
    apply score_loop_aborted.
  - destruct (ComputePredictorScore E
                (ComputePredictorFeatures E p' ad_events interest_segments
                                          intent_segments)) as [e|s] eqn:Hs.
    + rewrite (ComputePredictorScore_abort_is_out_of_range _ e Hs). simpl.
      apply score_loop_aborted.
    + simpl. apply IH. exact Hin.
Qed.

End PredictorMore.

(** ** The winner of the predictor path *)

Section PredictorWinner.

Context {double : Type} `{DoubleOps double} (E : Env double).

(** X13: When grouping yields predictors of ads of its list and sampling yields
    the ad of one of its candidates, the ad [GetFromAdPredictorScores]
    hands to its callback is an ad of the catalog that no exclusion rule
    excludes and, for a catalog of more than one ad, not the last served
    one. *)
Theorem GetFromAdPredictorScores_winner_passes_capping
    (this : inline_content_ads.EligibleAds)
    (interest_segments intent_segments : SegmentList) (dimensions : string)
    (ad_events : AdEventList) (ads : CreativeAdList double)
    (winner : CreativeAdInfo double) (calls : CallLog) :
  groups_ads_of_list E ->
  samples_a_candidate E ->
  db_AdEvents_GetAll E = (true, ad_events) ->
  db_GetForDimensions E dimensions = (true, ads) ->
  inline_content_ads.GetFromAdPredictorScores E this interest_segments
    intent_segments dimensions Scenario.report []
  = ret (true, Some winner, calls) ->
  winner ∈ ads
  /\ ShouldExcludeAd E ad_events (history_of E) winner = false
  /\ (length ads <> 1%nat ->
      creative_instance_id winner
      <> creative_instance_id
           (inline_content_ads.last_served_creative_ad_ this)).
Proof.
  intros Hgroup Hsample Hev Hdb Hrun.
  rewrite (GetFromAdPredictorScores_run E this interest_segments
             intent_segments dimensions ad_events ads Scenario.report []
             Hev Hdb) in Hrun.
  set (last := if inline_content_ads.ShouldCapLastServedAd ads
               then inline_content_ads.last_served_creative_ad_ this
               else inline_content_ads.default_CreativeAdInfo) in *.
  set (eligible_ads :=
         inline_content_ads.ApplyFrequencyCapping E this ads last ad_events
           (history_of E)) in *.
  destruct (is_empty eligible_ads); [discriminate Hrun|].
  unfold inline_content_ads.ChooseAd in Hrun.
  destruct (ComputePredictorFeaturesAndScores E
              (GroupEligibleAdsByCreativeInstanceId E eligible_ads) ad_events
              interest_segments intent_segments) as [e|scored] eqn:Hscored;
    [discriminate Hrun|].
  simpl in Hrun. unfold Scenario.report, ret in Hrun.
  injection Hrun as Hwinner _.
  destruct (Hsample scored winner Hwinner) as (k & p & Hin & Hp).
  destruct (score_loop_invariant E
              (GroupEligibleAdsByCreativeInstanceId E eligible_ads)
              ad_events interest_segments intent_segments
              (GroupEligibleAdsByCreativeInstanceId E eligible_ads) []
              scored Hscored) as (_ & Hfrom & _).
  { auto. }
  { constructor. }
  { intros x Hx. inversion Hx. }
  destruct (Hfrom (k, p) Hin) as (_ & k0 & p0 & s & Hin0 & _ & Hp0).
  simpl in Hp0. rewrite Hp0 in Hp. simpl in Hp. subst winner.
  apply Hgroup in Hin0. unfold eligible_ads in Hin0.
  apply ApplyFrequencyCapping_elem in Hin0 as (Hads & Hrule & Hid).
  split; [exact Hads|]. split; [exact Hrule|].
  intros Hlen. unfold last in Hid.
  destruct (inline_content_ads.ShouldCapLastServedAd ads) eqn:Hcap;
    [exact Hid|].
  apply ShouldCapLastServedAd_false_iff in Hcap. contradiction.
Qed.

End PredictorWinner.

Lemma scenario_groups_ads_of_list catalog events_ok seen :
  groups_ads_of_list (Scenario.env catalog events_ok seen).
Proof.
  intros ads k p. simpl.
  unfold Scenario.GroupEligibleAdsByCreativeInstanceId_spec.
  assert (Hgen : forall (l : CreativeAdList Q) acc,
             (forall x, x ∈ acc -> creative_ad (snd x) ∈ ads) ->
             (forall a, a ∈ l -> a ∈ ads) ->
             forall x,
               x ∈ fold_left
                     (fun m ad =>
                        map_insert (creative_instance_id ad)
                          {| creative_ad := ad;
                             segments := [segment ad];
                             does_match_intent_child_segments := false;
                             does_match_intent_parent_segments := false;
                             does_match_interest_child_segments := false;
                             does_match_interest_parent_segments := false;
                             ad_last_seen_hours_ago := 0;
                             advertiser_last_seen_hours_ago := 0;
                             score := 0%Q |} m) l acc ->
               creative_ad (snd x) ∈ ads).
  { induction l as [|a l IH]; intros acc Hacc Hl x Hx; simpl in Hx.
    - exact (Hacc x Hx).
    - apply (IH _) in Hx; [exact Hx | | intros b Hb; apply Hl; right; exact Hb].
      intros y Hy. apply map_insert_elem in Hy as [-> | Hy].
      + simpl. apply Hl. left.
      + exact (Hacc y Hy). }
  intros Hin. apply (Hgen ads [] (fun x Hx => match not_elem_of_nil x Hx with end)
                      (fun a Ha => Ha) (k, p) Hin).
Qed.

Lemma scenario_samples_a_candidate catalog events_ok seen :
  samples_a_candidate (Scenario.env catalog events_ok seen).
Proof.
  intros m ad. simpl. unfold Scenario.SampleFromAds_first.
  destruct m as [|[k p] m]; [discriminate|].
  intros Hsome. injection Hsome as <-. exists k, p. split; [left|reflexivity].
Qed.

(** The unit test [GetForFeatures]: the winner is the ad on ["foo-bar1"],
    an ad of the catalog. *)
Lemma GetFromAdPredictorScores_winner_passes_capping_witness :
  let a := Scenario.mk_ad "a" "A" "foo-bar1" 1 in
  let b := Scenario.mk_ad "b" "B" "foo-bar3" 1 in
  let E := Scenario.env [a; b] true [] in
  let this := Scenario.engine b in
  inline_content_ads.GetFromAdPredictorScores E this ["foo-bar3"]
    ["foo-bar1"; "foo-bar2"] "" Scenario.report []
  = ret (true, Some a,
         [AdEvents_GetAll; Client_GetBrowsingHistory 5000 180;
          CreativeAds_GetForDimensions ""])
  /\ a ∈ [a; b]
  /\ ShouldExcludeAd E [] (history_of E) a = false
  /\ (length [a; b] <> 1%nat ->
      creative_instance_id a
      <> creative_instance_id
           (inline_content_ads.last_served_creative_ad_ this)).
Proof.
  intros a b E this. split; [vm_compute; reflexivity|].
  refine (GetFromAdPredictorScores_winner_passes_capping E this ["foo-bar3"]
            ["foo-bar1"; "foo-bar2"] "" [] [a; b] a _
            (scenario_groups_ads_of_list [a; b] true [])
            (scenario_samples_a_candidate [a; b] true [])
            eq_refl eq_refl _).
  vm_compute. reflexivity.
Defined.


(** The scored map of two catalog ads. *)
Lemma ComputePredictorFeaturesAndScores_keyed_by_instance_id_witness :
  let a := Scenario.mk_ad "a" "A" "foo-bar1" 1 in
  let b := Scenario.mk_ad "b" "B" "foo-bar3" 1 in
  let E := Scenario.env [a; b] true [] in
  let scored :=
    match ComputePredictorFeaturesAndScores E
            (GroupEligibleAdsByCreativeInstanceId E [b; a]) []
            ["foo-bar3"] ["foo-bar1"] with
    | inr m => m
    | inl _ => []
    end in
  map fst scored = ["a"; "b"]
  /\ keys_increasing scored
  /\ forall k v, (k, v) ∈ scored -> k = creative_instance_id (creative_ad v).
Proof.
  intros a b E scored. split; [vm_compute; reflexivity|].
  pose proof (ComputePredictorFeaturesAndScores_keyed_by_instance_id E
                (GroupEligibleAdsByCreativeInstanceId E [b; a]) scored []
                ["foo-bar3"] ["foo-bar1"]) as Hkeyed.
  destruct Hkeyed as (Hsorted & Hfrom & _); [vm_compute; reflexivity|].
  split; [exact Hsorted|]. intros k v Hin. exact (proj1 (Hfrom k v Hin)).
Defined.

(** An ad on ["foo"], interest in ["foo-bar"], no intent segment. *)
Lemma intent_parent_weight_without_intent_segments_witness :
  let E := Scenario.env [] true [] in
  let p := {| creative_ad := Scenario.mk_ad "a" "A" "foo" 1;
              segments := ["foo"];
              does_match_intent_child_segments := false;
              does_match_intent_parent_segments := false;
              does_match_interest_child_segments := false;
              does_match_interest_parent_segments := false;
              ad_last_seen_hours_ago := 0;
              advertiser_last_seen_hours_ago := 0;
              score := 0%Q |} in
  let p' := ComputePredictorFeatures E p [] ["foo-bar"] [] in
  (exists s, s ∈ GetParentSegments E ["foo-bar"] /\ s ∈ segments p)
  /\ does_match_intent_child_segments p' = false
  /\ does_match_intent_parent_segments p' = true.
Proof.
  intros E p p'.
  assert (Hmeet : exists s, s ∈ GetParentSegments E ["foo-bar"]
                            /\ s ∈ segments p)
    by (exists "foo"; split; vm_compute; left).
  split; [exact Hmeet|].
  destruct (intent_parent_weight_without_intent_segments E
              1%Q 1%Q 1%Q 1%Q 1%Q 1%Q 1%Q [] p [] ["foo-bar"] eq_refl Hmeet)
    as (Hchild & Hparent & _).
  split; [exact Hchild | exact Hparent].
Defined.

(** A weight vector of four slots and a never seen ad. *)
Lemma ComputePredictorFeaturesAndScores_needs_recency_weight_witness :
  let a := Scenario.mk_ad "a" "A" "foo-bar1" 1 in
  let E := with_weights [1; 1; 1; 1]%Q (Scenario.env [a] true []) in
  ComputePredictorFeaturesAndScores E
    (GroupEligibleAdsByCreativeInstanceId E [a]) [] [] []
  = inl out_of_range.
Proof.
  intros a E.
  refine (ComputePredictorFeaturesAndScores_needs_recency_weight E
            (GroupEligibleAdsByCreativeInstanceId E [a]) [] [] [] "a" _
            _ _ eq_refl).
  - vm_compute. lia.
  - vm_compute. left.
Defined.

Section DeliveredAds.

Context {double : Type} `{DoubleOps double} (E : Env double).

(** X11: When the stages outside this file only remove ads, the ads
    [GetForSegments] hands to its callback are ads the creative store
    returned for one segment list, in the store's order: nothing is added,
    duplicated or reordered, and answers to different queries are never
    mixed. *)
Theorem GetForSegments_delivers_store_ads
    (this : inline_content_ads.EligibleAds) (segments : SegmentList)
    (dimensions : string) :
  stages_only_remove E ->
  exists allowed ads calls,
    (forall R (callback : bool -> CreativeAdList double -> Async R) log,
       inline_content_ads.GetForSegments E this segments dimensions callback
         log
       = callback allowed ads (log ++ calls))
    /\ (ads = []
        \/ exists segs,
             sublist ads
               (snd (db_GetForSegmentsAndDimensions E segs dimensions))).
Proof.
  intros Hremove.
  destruct (GetForSegments_outcome E this segments dimensions)
    as (allowed & ads & rest & Hrun & Hfail & Hok).
  exists allowed, ads, (AdEvents_GetAll :: rest).
  split; [exact Hrun|].
  destruct (fst (db_AdEvents_GetAll E)) eqn:Hev.
  - destruct (Hok eq_refl) as (queries & _ & _ & _ & [Hnil | [segs Hads]]).
    + left. exact Hnil.
    + right. exists segs. rewrite Hads. unfold tier.
      apply FilterIneligibleAds_sublist. exact Hremove.
  - left. exact (proj2 (Hfail eq_refl)).
Qed.

End DeliveredAds.

(** The cascade on the store of the unit test
    [GetAdsForParentChildSegment]. *)
Lemma GetForSegments_delivers_store_ads_witness :
  let E := Scenario.env [Scenario.tech; Scenario.software] true [] in
  let this := Scenario.engine inline_content_ads.default_CreativeAdInfo in
  exists allowed ads calls,
    (forall R (callback : bool -> CreativeAdList Q -> Async R) log,
       inline_content_ads.GetForSegments E this
         ["technology & computing-software"] "" callback log
       = callback allowed ads (log ++ calls))
    /\ (ads = []
        \/ exists segs,
             sublist ads (snd (db_GetForSegmentsAndDimensions E segs ""))).
Proof.
  intros E this.
  exact (GetForSegments_delivers_store_ads E this
           ["technology & computing-software"] ""
           (scenario_stages_only_remove [Scenario.tech; Scenario.software]
              true [])).
Defined.
